(** * zipsvr: record loading, city index and city lookup

    A shallow embedding of [zipsvr/main.go]: the CSV and JSON loaders, the
    index construction loop of [main], and [zipsForCityHandler].

    Go strings are byte strings and are modelled as [string]; a Go map is a
    [gmap]; a nil pointer and the nil slice are modelled by [None].  The Go
    standard library calls the program makes ([strings.ToLower],
    [path.Split], [csv.Reader.Read], [json.Decoder.Decode],
    [json.Encoder.Encode], the [http.ResponseWriter] of net/http) are
    modelled on their documented behaviour at the level the program observes
    them; each model says what it leaves out. *)

From Stdlib Require Import Ascii String.
From stdpp Require Import gmap strings list fin_maps.

Local Open Scope string_scope.
Local Open Scope list_scope.

(** ** Errors and outcomes *)

(** Go [error] values the program can meet.  [Errorf prefix cause] is
    [fmt.Errorf(prefix + "%v", cause)]. *)
Inductive error : Type :=
  | EOF
  | ErrUnexpectedEOF
  | PathError (msg : string)
  | ParseError (msg : string)
  | ErrFieldCount
  | SyntaxError (msg : string)
  | UnmarshalTypeError (msg : string)
  | WriteError (msg : string)
  | Errorf (prefix : string) (cause : error).

(** A Go call either returns or panics. *)
Inductive outcome (A : Type) : Type :=
  | Returned (a : A)
  | Panicked (msg : string).
Arguments Returned {A} a.
Arguments Panicked {A} msg.

(** ** package strings *)

Module Strings.

Definition isUpper (c : ascii) : bool :=
  let n := nat_of_ascii c in (65 <=? n)%nat && (n <=? 90)%nat.

(** One byte of [strings.ToLower] on the ASCII range: ['A'..'Z'] move to
    ['a'..'z'] ([c += 'a' - 'A']), every other byte is kept. *)
Definition lowerByte (c : ascii) : ascii :=
  if isUpper c then ascii_of_nat (nat_of_ascii c + 32) else c.

(** [strings.ToLower].  Go lower-cases runes above the ASCII range through
    [unicode.ToLower]; the model keeps those bytes as they are. *)
Fixpoint ToLower (s : string) : string :=
  match s with
  | EmptyString => EmptyString
  | String c rest => String (lowerByte c) (ToLower rest)
  end.

(** Two bytes are the same letter up to case: equal, or an upper-case
    letter and its lower-case form. *)
Definition sameLetter (a b : ascii) : bool :=
  Ascii.eqb a b
  || (isUpper a && (nat_of_ascii b =? nat_of_ascii a + 32)%nat)
  || (isUpper b && (nat_of_ascii a =? nat_of_ascii b + 32)%nat).

(** Two strings are equal up to letter case. *)
Fixpoint equalUpToCase (s t : string) : bool :=
  match s, t with
  | EmptyString, EmptyString => true
  | String a s', String b t' => sameLetter a b && equalUpToCase s' t'
  | _, _ => false
  end.

End Strings.

(** ** package path *)

Module Path.

(** [strings.LastIndex(s, "/") >= 0]. *)
Fixpoint hasSlash (s : string) : bool :=
  match s with
  | EmptyString => false
  | String c rest => Ascii.eqb c "/"%char || hasSlash rest
  end.

(** The part of [s] after its last ['/'] ([s] itself when it has none):
    [path[i+1:]] for [i := strings.LastIndex(path, "/")]. *)
Fixpoint afterLastSlash (s : string) : string :=
  match s with
  | EmptyString => EmptyString
  | String c rest =>
      if hasSlash rest then afterLastSlash rest
      else if Ascii.eqb c "/"%char then rest else String c rest
  end.

(** The part of [s] up to and including its last ['/']: [path[:i+1]]. *)
Fixpoint throughLastSlash (s : string) : string :=
  match s with
  | EmptyString => EmptyString
  | String c rest =>
      if hasSlash rest then String c (throughLastSlash rest)
      else if Ascii.eqb c "/"%char then String c EmptyString else EmptyString
  end.

(** [path.Split]: splits immediately after the final slash. *)
Definition Split (p : string) : string * string :=
  (throughLastSlash p, afterLastSlash p).

End Path.

(** ** Records, slices and the index *)

Record zip : Type := mkZip { Zip : string; City : string; State : string }.

#[global] Instance zip_eq_dec : EqDecision zip.
Proof. solve_decision. Defined.

(** [*zip]: [None] is the nil pointer.  Records are never written after
    they are created, so a pointer is modelled by the value it points to. *)
Definition zipPtr : Type := option zip.

(** [zipSlice]: [None] is the nil slice, [Some l] a non-nil slice. *)
Definition zipSlice : Type := option (list zipPtr).

Definition elems (s : zipSlice) : list zipPtr := default [] s.

(** [append(s, z)]: the result is never nil. *)
Definition append (s : zipSlice) (z : zipPtr) : zipSlice := Some (elems s ++ [z]).

(** [zipIndex]: a Go map from string to [zipSlice]. *)
Abbreviation zipIndex := (gmap string zipSlice).

(** [zi[k]]: the zero value, the nil slice, when [k] is not in the map. *)
Definition index (zi : zipIndex) (k : string) : zipSlice :=
  match zi !! k with
  | Some g => g
  | None => None
  end.

(** ** main: index construction (lines 200-204) *)

(** [for _, z := range zips { lower := strings.ToLower(z.City);
    zi[lower] = append(zi[lower], z) }].  Reading [z.City] through a nil
    pointer panics. *)
Fixpoint indexLoop (zi : zipIndex) (zips : list zipPtr) : outcome zipIndex :=
  match zips with
  | [] => Returned zi
  | None :: _ => Panicked "invalid memory address or nil pointer dereference"
  | Some z :: rest =>
      let lower := Strings.ToLower (City z) in
      indexLoop (<[lower := append (index zi lower) (Some z)]> zi) rest
  end.

(** [zi := make(zipIndex)] followed by the loop. *)
Definition buildIndex (zips : zipSlice) : outcome zipIndex :=
  indexLoop ∅ (elems zips).

(** The key a record is filed under. *)
Definition keyOf (p : zipPtr) : option string :=
  (fun z => Strings.ToLower (City z)) <$> p.

(** ** package os *)

Module Os.

(** [os.Open] over a file system that maps a path to the contents of the
    file at that path, if there is one. *)
Definition Open {A : Type} (fs : string -> option A) (name : string)
  : option A * option error :=
  match fs name with
  | Some f => (Some f, None)
  | None => (None, Some (PathError ("open " +:+ name +:+ ": no such file or directory")))
  end.

End Os.

(** ** package encoding/csv *)

Module Csv.

(** What the tokenizer of [csv.Reader] makes of the next record of the
    stream: its fields, or a lexical error (a bare or unterminated
    quote).  Blank lines yield no record and do not appear. *)
Inductive line : Type :=
  | Fields (fields : list string)
  | Malformed (msg : string).

Record Reader : Type := mkReader { pending : list line; FieldsPerRecord : Z }.

(** [csv.NewReader]: [FieldsPerRecord] starts at 0. *)
Definition NewReader (f : list line) : Reader := mkReader f 0.

(** [Reader.Read]: at the end of the stream [io.EOF]; a lexical error as
    it is; otherwise, when [FieldsPerRecord] is positive a record of
    another length is returned with [ErrFieldCount], and when it is 0 it
    is set to the length of this record. *)
Definition Read (r : Reader) : list string * option error * Reader :=
  match pending r with
  | [] => ([], Some EOF, r)
  | Malformed msg :: rest => ([], Some (ParseError msg), mkReader rest (FieldsPerRecord r))
  | Fields record :: rest =>
      if (0 <? FieldsPerRecord r)%Z then
        if (Z.of_nat (length record) =? FieldsPerRecord r)%Z
        then (record, None, mkReader rest (FieldsPerRecord r))
        else (record, Some ErrFieldCount, mkReader rest (FieldsPerRecord r))
      else if (FieldsPerRecord r =? 0)%Z
        then (record, None, mkReader rest (Z.of_nat (length record)))
        else (record, None, mkReader rest (FieldsPerRecord r))
  end.

End Csv.

(** ** loadZipsFromCSV *)

(** The [for] loop of [loadZipsFromCSV] (lines 68-91); [fuel] bounds the
    number of iterations, [None] is a loop that has not finished within
    it.  [record[i]] panics when [i] is out of range. *)
Fixpoint readLoop (fuel : nat) (reader : Csv.Reader) (zips : zipSlice)
  : option (outcome (zipSlice * option error)) :=
  match fuel with
  | O => None
  | S fuel' =>
      let '(record, err, reader') := Csv.Read reader in
      match err with
      | Some EOF => Some (Returned (zips, None))
      | Some err =>
          Some (Returned (None, Some (Errorf "error loading zips from CSV: " err)))
      | None =>
          match record !! 0, record !! 3, record !! 6 with
          | Some code, Some city, Some state =>
              let z := Some (mkZip code city state) in
              readLoop fuel' reader' (append zips z)
          | _, _, _ => Some (Panicked "index out of range")
          end
      end
  end.

(** [loadZipsFromCSV] (lines 44-92).  The loop is given one iteration more
    than there are records left in the stream. *)
Definition loadZipsFromCSV (fs : string -> option (list Csv.line)) (filePath : string)
  : option (outcome (zipSlice * option error)) :=
  match Os.Open fs filePath with
  | (_, Some err) => Some (Returned (None, Some (Errorf "error opening zips file: " err)))
  | (None, None) => Some (Panicked "invalid memory address or nil pointer dereference")
  | (Some f, None) =>
      let reader := Csv.NewReader f in
      let '(_, err, reader) := Csv.Read reader in
      match err with
      | Some err =>
          Some (Returned (None, Some (Errorf "error reading CSV field names: " err)))
      | None =>
          let zips : zipSlice := Some [] in
          readLoop (S (length (Csv.pending reader))) reader zips
      end
  end.

(** A row that tokenizes and has [width] fields. *)
Definition rowOK (width : nat) (l : Csv.line) : Prop :=
  match l with
  | Csv.Fields fields => length fields = width
  | Csv.Malformed _ => False
  end.


(** A row with fewer than seven fields. *)
Definition shortRow (l : Csv.line) : Prop :=
  match l with
  | Csv.Fields fields => length fields < 7
  | Csv.Malformed _ => False
  end.

(** The record a row yields by position: 0, 3 and 6. *)
Definition recordOfRow (l : Csv.line) : option zip :=
  match l with
  | Csv.Fields fields =>
      match fields !! 0, fields !! 3, fields !! 6 with
      | Some code, Some city, Some state => Some (mkZip code city state)
      | _, _, _ => None
      end
  | Csv.Malformed _ => None
  end.

(** ** net/http: requests and the response writer *)

(** [err.Error()].  The line and column a [csv.ParseError] carries are left
    out of the message. *)
Fixpoint errorString (e : error) : string :=
  match e with
  | EOF => "EOF"
  | ErrUnexpectedEOF => "unexpected EOF"
  | PathError msg => msg
  | ParseError msg => msg
  | ErrFieldCount => "wrong number of fields in line"
  | SyntaxError msg => msg
  | UnmarshalTypeError msg => msg
  | WriteError msg => msg
  | Errorf prefix cause => prefix +:+ errorString cause
  end.

Module Http.

Record URL : Type := mkURL { Path : string; RawQuery : string }.

Record Request : Type := mkRequest {
  Method : string;
  Url : URL;
  ReqHeader : gmap string (list string);
  Body : string
}.

(** [http.Header].  The keys the program uses are already in canonical
    form, so the canonicalisation of [Add] and [Set] is the identity on
    them and is left out. *)
Abbreviation Header := (gmap string (list string)).

Definition Add (h : Header) (key value : string) : Header :=
  <[key := (h !!! key) ++ [value]]> h.

Definition Set_ (h : Header) (key value : string) : Header :=
  <[key := [value]]> h.

(** The response writer of net/http.  [handlerHeader] is the map
    [w.Header()] hands out; [WriteHeader] fixes the status and takes the
    copy of the header that goes on the wire, once; [connErr] is what the
    connection answers to a write ([None] when it is healthy). *)
Record ResponseWriter : Type := mkResponseWriter {
  handlerHeader : Header;
  wroteHeader : bool;
  status : Z;
  sentHeader : Header;
  body : string;
  connErr : option error
}.

(** A writer for a fresh response. *)
Definition newResponse (connErr : option error) : ResponseWriter :=
  mkResponseWriter ∅ false 0 ∅ "" connErr.

Definition HeaderAdd (w : ResponseWriter) (key value : string) : ResponseWriter :=
  mkResponseWriter (Add (handlerHeader w) key value) (wroteHeader w) (status w)
    (sentHeader w) (body w) (connErr w).

Definition HeaderSet (w : ResponseWriter) (key value : string) : ResponseWriter :=
  mkResponseWriter (Set_ (handlerHeader w) key value) (wroteHeader w) (status w)
    (sentHeader w) (body w) (connErr w).

(** [w.WriteHeader(code)]: a second call is superfluous and ignored. *)
Definition WriteHeader (w : ResponseWriter) (code : Z) : ResponseWriter :=
  if wroteHeader w then w
  else mkResponseWriter (handlerHeader w) true code (handlerHeader w) (body w) (connErr w).

(** [w.Write(data)]: an implicit [WriteHeader(200)] first. *)
Definition Write (w : ResponseWriter) (data : string) : ResponseWriter * option error :=
  let w := if wroteHeader w then w else WriteHeader w 200 in
  match connErr w with
  | Some e => (w, Some e)
  | None =>
      (mkResponseWriter (handlerHeader w) (wroteHeader w) (status w) (sentHeader w)
         (body w +:+ data) (connErr w), None)
  end.

(** [http.Error(w, msg, code)]. *)
Definition Error (w : ResponseWriter) (msg : string) (code : Z) : ResponseWriter :=
  let w := HeaderSet w "Content-Type" "text/plain; charset=utf-8" in
  let w := HeaderSet w "X-Content-Type-Options" "nosniff" in
  let w := WriteHeader w code in
  fst (Write w (msg +:+ String (ascii_of_nat 10) "")).

Definition StatusInternalServerError : Z := 500.
Definition StatusOK : Z := 200.

End Http.

(** ** package encoding/json *)

Module Json.

(** A JSON value, strings already unescaped. *)
#[warnings="-register-all"]
Inductive value : Type :=
  | Null
  | Bool (b : bool)
  | Number (literal : string)
  | Str (s : string)
  | Array (vs : list value)
  | Object (members : list (string * value)).

(** What the scanner of [json.Decoder] finds next in the stream: a
    complete value, invalid text, or text that ends inside a value.  The
    stream that holds nothing more (white space apart) is the empty
    list. *)
Inductive item : Type :=
  | Value (v : value)
  | Invalid (msg : string)
  | Truncated.

(** The first error met is the one reported ([saveError]). *)
Definition saveError (saved : option error) (e : error) : option error :=
  match saved with
  | Some _ => saved
  | None => Some e
  end.

(** One member of an object stored into a [zip]: the key selects the
    field whose tag it equals up to ASCII case (Go also folds U+017F into
    the s of the key state); a string is stored, null leaves the field, a
    value of another kind is a type error; other keys are skipped. *)
Definition storeMember (acc : zip * option error) (m : string * value)
  : zip * option error :=
  let '(z, saved) := acc in
  let '(key, v) := m in
  let set (f : string -> zip) : zip * option error :=
    match v with
    | Str s => (f s, saved)
    | Null => (z, saved)
    | _ => (z, saveError saved (UnmarshalTypeError "json: cannot unmarshal into Go struct field of type string"))
    end in
  if Strings.equalUpToCase key "zip" then set (fun s => mkZip s (City z) (State z))
  else if Strings.equalUpToCase key "city" then set (fun s => mkZip (Zip z) s (State z))
  else if Strings.equalUpToCase key "state" then set (fun s => mkZip (Zip z) (City z) s)
  else (z, saved).

(** One element of the array stored into a [*zip] slot: null is the nil
    pointer, an object a new record, any other value a type error. *)
Definition storeElem (acc : list zipPtr * option error) (v : value)
  : list zipPtr * option error :=
  let '(l, saved) := acc in
  match v with
  | Null => (l ++ [None], saved)
  | Object members =>
      let '(z, saved) := fold_left storeMember members (mkZip "" "" "", saved) in
      (l ++ [Some z], saved)
  | _ =>
      (l ++ [Some (mkZip "" "" "")],
       saveError saved (UnmarshalTypeError "json: cannot unmarshal into Go value of type main.zip"))
  end.

(** A value stored into a [*zipSlice]: null is the nil slice, an array a
    non-nil slice of its elements, any other value a type error that
    leaves the slice as it was. *)
Definition unmarshal (v : value) (zips : zipSlice) : zipSlice * option error :=
  match v with
  | Null => (None, None)
  | Array vs =>
      let '(l, saved) := fold_left storeElem vs ([], None) in
      (Some l, saved)
  | _ =>
      (zips, Some (UnmarshalTypeError "json: cannot unmarshal into Go value of type main.zipSlice"))
  end.

(** [decoder.Decode(&zips)]: reads the next value of the stream. *)
Definition Decode (decoder : list item) (zips : zipSlice)
  : zipSlice * option error * list item :=
  match decoder with
  | [] => (zips, Some EOF, [])
  | Truncated :: rest => (zips, Some ErrUnexpectedEOF, rest)
  | Invalid msg :: rest => (zips, Some (SyntaxError msg), rest)
  | Value v :: rest => let '(zips, err) := unmarshal v zips in (zips, err, rest)
  end.

Definition quote : string := String (ascii_of_nat 34) "".
Definition newline : string := String (ascii_of_nat 10) "".

Definition hexDigit (n : nat) : ascii :=
  nth n (list_ascii_of_string "0123456789abcdef") "0"%char.

(** One byte of a string as the encoder writes it (HTML escaping on, the
    default of [json.Encoder]).  Bytes from 0x80 on are copied: Go also
    replaces invalid UTF-8 and escapes U+2028 and U+2029. *)
Definition escapeByte (c : ascii) : string :=
  let n := nat_of_ascii c in
  if (n =? 34)%nat then "\" +:+ quote
  else if (n =? 92)%nat then "\\"
  else if (n =? 10)%nat then "\n"
  else if (n =? 13)%nat then "\r"
  else if (n =? 9)%nat then "\t"
  else if (n <? 32)%nat || (n =? 60)%nat || (n =? 62)%nat || (n =? 38)%nat
    then "\u00" +:+ String (hexDigit (n / 16)) (String (hexDigit (n mod 16)) "")
  else String c "".

Fixpoint escape (s : string) : string :=
  match s with
  | EmptyString => EmptyString
  | String c rest => escapeByte c +:+ escape rest
  end.

Definition marshalString (s : string) : string := quote +:+ escape s +:+ quote.

Definition marshalZip (z : zip) : string :=
  "{" +:+ quote +:+ "zip" +:+ quote +:+ ":" +:+ marshalString (Zip z)
  +:+ "," +:+ quote +:+ "city" +:+ quote +:+ ":" +:+ marshalString (City z)
  +:+ "," +:+ quote +:+ "state" +:+ quote +:+ ":" +:+ marshalString (State z) +:+ "}".

(** A nil pointer is written as [null]. *)
Definition marshalPtr (p : zipPtr) : string :=
  match p with
  | None => "null"
  | Some z => marshalZip z
  end.

Fixpoint joinComma (l : list string) : string :=
  match l with
  | [] => ""
  | [x] => x
  | x :: rest => x +:+ "," +:+ joinComma rest
  end.

(** A nil slice is written as [null], a non-nil one as an array. *)
Definition marshal (s : zipSlice) : string :=
  match s with
  | None => "null"
  | Some l => "[" +:+ joinComma (marshalPtr <$> l) +:+ "]"
  end.

(** [encoder.Encode(v)]: the whole value is marshalled, a newline is
    added and the bytes go to the writer in one [Write].  Marshalling a
    [zipSlice] cannot fail. *)
Definition Encode (w : Http.ResponseWriter) (v : zipSlice)
  : Http.ResponseWriter * option error :=
  Http.Write w (marshal v +:+ newline).

End Json.

(** ** loadZipsFromJSON (lines 95-116) *)

Definition loadZipsFromJSON (fs : string -> option (list Json.item)) (filePath : string)
  : outcome (zipSlice * option error) :=
  match Os.Open fs filePath with
  | (_, Some err) => Returned (None, Some (Errorf "error opening zips file: " err))
  | (None, None) => Panicked "invalid memory address or nil pointer dereference"
  | (Some f, None) =>
      let zips : zipSlice := Some [] in
      let decoder := f in
      let '(zips, err, _) := Json.Decode decoder zips in
      match err with
      | Some err => Returned (None, Some (Errorf "error decoding zips from json: " err))
      | None => Returned (zips, None)
      end
  end.

(** ** zipsForCityHandler (lines 153-165) *)

Definition zipsForCityHandler (zi : zipIndex) (w : Http.ResponseWriter) (r : Http.Request)
  : Http.ResponseWriter :=
  let '(_, city) := Path.Split (Http.Path (Http.Url r)) in
  let lcity := Strings.ToLower city in
  let w := Http.HeaderAdd w "Content-Type" "application/json; charset=utf-8" in
  let w := Http.HeaderAdd w "Access-Control-Allow-Origin" "*" in
  let '(w, err) := Json.Encode w (index zi lcity) in
  match err with
  | Some err =>
      Http.Error w ("error encoding json: " +:+ errorString err) Http.StatusInternalServerError
  | None => w
  end.

(** The response a client is sent: status, header and body. *)
Definition response (w : Http.ResponseWriter) : Z * Http.Header * string :=
  (Http.status w, Http.sentHeader w, Http.body w).

(** A request for [path] with the given method. *)
Definition request (method path : string) : Http.Request :=
  Http.mkRequest method (Http.mkURL path "") ∅ "".

(** ** main: from the environment to a served index (lines 169-204) *)

Inductive startup : Type :=
  | Fatal (msg : string)
  | Crashed (msg : string)
  | Serving (addr : string) (zi : zipIndex).

Definition main (env : string -> string) (fs : string -> option (list Csv.line))
  : option startup :=
  let addr := env "ADDR" in
  if (String.length addr =? 0)%nat then Some (Fatal "please set ADDR environment variable")
  else
    match loadZipsFromCSV fs "../data/zips.csv" with
    | None => None
    | Some (Panicked msg) => Some (Crashed msg)
    | Some (Returned (_, Some err)) => Some (Fatal ("error loading zips: " +:+ errorString err))
    | Some (Returned (zips, None)) =>
        match buildIndex zips with
        | Panicked msg => Some (Crashed msg)
        | Returned zi => Some (Serving addr zi)
        end
    end.

(** ** helloHandler (zipsvr/main.go, lines 130-151) *)

Module Url.

(** [url.Values]: the parsed query string. *)
Abbreviation Values := (gmap string (list string)).

(** [Values.Get]: the first value of [key], the empty string when there is
    none. *)
Definition Get (v : Values) (key : string) : string :=
  match v !! key with
  | Some (value :: _) => value
  | _ => ""
  end.

End Url.

(** [helloHandler].  [Query] is [r.URL.Query()], the parser of the query
    string, which the handler takes from net/url.  The error of [w.Write]
    is dropped, as in the source. *)
Definition helloHandler (Query : Http.URL -> Url.Values)
    (w : Http.ResponseWriter) (r : Http.Request) : Http.ResponseWriter :=
  let name := Url.Get (Query (Http.Url r)) "name" in
  let name := if (String.length name =? 0)%nat then "World" else name in
  let w := Http.HeaderAdd w "Content-Type" "text/plain" in
  (Http.Write w ("Hello " +:+ name)).1.

(** The header of a response of [helloHandler] that nothing else wrote
    to. *)
Definition textHeaders : Http.Header := <["Content-Type" := ["text/plain"]]> ∅.

(** ** main of the JSON variant (tasksvr/models/tasks/mongostore.go, second
    part, lines 112-175) *)

(** This [main] opens and decodes [../data/zips.json] itself and then
    builds the index with the same loop. *)
Definition mainJSON (env : string -> string) (fs : string -> option (list Json.item))
  : startup :=
  let addr := env "ADDR" in
  if (String.length addr =? 0)%nat then Fatal "please set ADDR environment variable"
  else
    match Os.Open fs "../data/zips.json" with
    | (_, Some err) => Fatal ("error opening zips file: " +:+ errorString err)
    | (None, None) => Crashed "invalid memory address or nil pointer dereference"
    | (Some f, None) =>
        let zips : zipSlice := Some [] in
        let decoder := f in
        let '(zips, err, _) := Json.Decode decoder zips in
        match err with
        | Some err => Fatal ("error decoding zips json: " +:+ errorString err)
        | None =>
            match buildIndex zips with
            | Panicked msg => Crashed msg
            | Returned zi => Serving addr zi
            end
        end
    end.

(** ** middleware/logrequests.go *)

Module Middleware.








End Middleware.

(** ** tasksvr/handlers/tasks.go *)

Section Tasks.

(** The package [tasks] and the constants of package [handlers] are not
    part of the sources at hand; [HandleTasks] is modelled over them:
    [decodeNewTask] is [json.NewDecoder(r.Body).Decode] into a new
    [tasks.NewTask], [Validate] its method, [Insert] the method of
    [ctx.TasksStore] on a store of type [Store], [marshalTask]
    [json.Marshal] of a [*tasks.Task]. *)
Variables NewTask Task Store : Type.
Variable decodeNewTask : string -> NewTask * option error.
Variable Validate : NewTask -> option error.
Variable Insert : Store -> NewTask -> Task * option error * Store.
Variable marshalTask : Task -> string + error.
Variables headerContentType contentTypeJSONUTF8 : string.

(** [HandleTasks] (lines 11-36): the [switch] has the one case [POST].
    The error of the final [encoder.Encode] is dropped; nothing is written
    when the task cannot be marshalled. *)
Definition HandleTasks (store : Store) (w : Http.ResponseWriter) (r : Http.Request)
  : Store * Http.ResponseWriter :=
  if String.eqb (Http.Method r) "POST" then
    let '(newtask, err) := decodeNewTask (Http.Body r) in
    match err with
    | Some _ => (store, Http.Error w "invalid JSON" 400)
    | None =>
        match Validate newtask with
        | Some err =>
            (store, Http.Error w ("error validating task: " +:+ errorString err) 400)
        | None =>
            let '(task, err, store) := Insert store newtask in
            match err with
            | Some err =>
                (store, Http.Error w ("error inserting task: " +:+ errorString err)
                          Http.StatusInternalServerError)
            | None =>
                let w := Http.HeaderAdd w headerContentType contentTypeJSONUTF8 in
                match marshalTask task with
                | inl bytes => (store, (Http.Write w (bytes +:+ Json.newline)).1)
                | inr _ => (store, w)
                end
            end
        end
    end
  else (store, w).

(** [HandleSpecificTask] (lines 39-40): the body is empty. *)
Definition HandleSpecificTask (store : Store) (w : Http.ResponseWriter) (r : Http.Request)
  : Store * Http.ResponseWriter :=
  (store, w).

End Tasks.

#[global] Instance rowOK_dec (width : nat) (l : Csv.line) : Decision (rowOK width l).
Proof. destruct l; simpl; apply _. Defined.

(** ** Properties of the index and the running example *)

(** The number of entries the groups of [zi] hold between them. *)
Definition entries (zi : zipIndex) : nat :=
  map_fold (fun (_ : string) (g : zipSlice) (n : nat) => length (elems g) + n) 0 zi.

(** [zi] groups [zips] by lower-cased city: the group of a key is the
    subsequence of the records with that key, in input order; a record is
    in the group of its own key and in no other; the keys are the
    lower-cased cities that occur; the groups hold as many entries as there
    are records. *)
Definition groupedByCity (zips : zipSlice) (zi : zipIndex) : Prop :=
  (forall k, elems (index zi k) = filter (fun p => keyOf p = Some k) (elems zips)) /\
  (forall z, Some z ∈ elems zips -> Some z ∈ elems (index zi (Strings.ToLower (City z)))) /\
  (forall z k, Some z ∈ elems (index zi k) ->
     Some z ∈ elems zips /\ k = Strings.ToLower (City z)) /\
  (forall k, k ∈ dom zi <-> exists z, Some z ∈ elems zips /\ Strings.ToLower (City z) = k) /\
  (forall k, sublist (elems (index zi k)) (elems zips)) /\
  entries zi = length (elems zips).

(** The header of a response of the handler that nothing else wrote to. *)
Definition jsonHeaders : Http.Header :=
  <["Access-Control-Allow-Origin" := ["*"]]>
    (<["Content-Type" := ["application/json; charset=utf-8"]]> ∅).

(** The record behind [p] has the city [q], up to letter case. *)
Definition cityMatches (q : string) (p : zipPtr) : Prop :=
  match p with
  | Some z => Strings.equalUpToCase (City z) q = true
  | None => False
  end.

#[global] Instance cityMatches_dec (q : string) (p : zipPtr) : Decision (cityMatches q p).
Proof. destruct p; simpl; apply _. Defined.


(** The three records of the end-to-end example and their file. *)
Definition seattle1 : zip := mkZip "98101" "Seattle" "WA".
Definition seattle2 : zip := mkZip "98102" "Seattle" "WA".
Definition newYork : zip := mkZip "10001" "New York" "NY".

Definition exampleZips : zipSlice := Some [Some seattle1; Some seattle2; Some newYork].

Definition exampleIndex : zipIndex :=
  <["new york" := Some [Some newYork]]>
    (<["seattle" := Some [Some seattle1; Some seattle2]]> ∅).

Definition exampleRows : list Csv.line :=
  [ Csv.Fields ["zip"; "type"; "primary_city"; "city"; "county"; "timezone"; "state"];
    Csv.Fields ["98101"; "STANDARD"; "Seattle"; "Seattle"; "King"; "PST"; "WA"];
    Csv.Fields ["98102"; "STANDARD"; "Seattle"; "Seattle"; "King"; "PST"; "WA"];
    Csv.Fields ["10001"; "STANDARD"; "New York"; "New York"; "New York"; "EST"; "NY"] ].

(** A file whose header and only row have three fields. *)
Definition shortRows : list Csv.line :=
  [ Csv.Fields ["zip"; "city"; "state"]; Csv.Fields ["98101"; "Seattle"; "WA"] ].

(** A file whose second row lost its last field. *)
Definition raggedRows : list Csv.line :=
  [ Csv.Fields ["zip"; "type"; "primary_city"; "city"; "county"; "timezone"; "state"];
    Csv.Fields ["98101"; "STANDARD"; "Seattle"; "Seattle"; "King"; "PST"] ].

(** A file system with one file. *)
Definition oneFile {A : Type} (name : string) (f : A) (p : string) : option A :=
  if decide (p = name) then Some f else None.

(** ** Checks on concrete inputs *)

Example ToLower_Seattle : Strings.ToLower "SeaTTLE" = "seattle".
Proof. reflexivity. Qed.

Example Split_city : Path.Split "/zips/city/seattle" = ("/zips/city/", "seattle").
Proof. reflexivity. Qed.

Example Split_nested : Path.Split "/zips/city/a/b" = ("/zips/city/a/", "b").
Proof. reflexivity. Qed.

Example Split_noslash : Path.Split "seattle" = ("", "seattle").
Proof. reflexivity. Qed.

Example Split_trailing_slash : Path.Split "/zips/city/seattle/" = ("/zips/city/seattle/", "").
Proof. reflexivity. Qed.

(** The end-to-end example: the file is loaded, indexed and served. *)
Example main_example :
  main (fun _ => "localhost:4000") (oneFile "../data/zips.csv" exampleRows)
  = Some (Serving "localhost:4000" exampleIndex).
Proof. vm_compute. reflexivity. Qed.

Example main_without_ADDR :
  main (fun _ => "") (oneFile "../data/zips.csv" exampleRows)
  = Some (Fatal "please set ADDR environment variable").
Proof. reflexivity. Qed.

Example body_seattle :
  Http.body (zipsForCityHandler exampleIndex (Http.newResponse None)
               (request "GET" "/zips/city/seattle"))
  = "[" +:+ Json.marshalZip seattle1 +:+ "," +:+ Json.marshalZip seattle2 +:+ "]"
    +:+ Json.newline.
Proof. reflexivity. Qed.

Example body_new_york :
  Http.body (zipsForCityHandler exampleIndex (Http.newResponse None)
               (request "GET" "/zips/city/new york"))
  = "[" +:+ Json.marshalZip newYork +:+ "]" +:+ Json.newline.
Proof. reflexivity. Qed.

Example marshalZip_seattle1 :
  Json.marshalZip seattle1
  = "{" +:+ Json.quote +:+ "zip" +:+ Json.quote +:+ ":" +:+ Json.quote +:+ "98101"
    +:+ Json.quote +:+ "," +:+ Json.quote +:+ "city" +:+ Json.quote +:+ ":" +:+ Json.quote
    +:+ "Seattle" +:+ Json.quote +:+ "," +:+ Json.quote +:+ "state" +:+ Json.quote +:+ ":"
    +:+ Json.quote +:+ "WA" +:+ Json.quote +:+ "}".
Proof. reflexivity. Qed.

Example escape_html : Json.escape "a<b&c" = "a\u003cb\u0026c".
Proof. reflexivity. Qed.

(** The width of the header binds the rows: seven-field rows under a
    three-field header are rejected by the reader. *)
Example header_width_binds :
  loadZipsFromCSV
    (oneFile "zips.csv"
       [ Csv.Fields ["zip"; "city"; "state"];
         Csv.Fields ["98101"; "STANDARD"; "Seattle"; "Seattle"; "King"; "PST"; "WA"] ])
    "zips.csv"
  = Some (Returned (None, Some (Errorf "error loading zips from CSV: " ErrFieldCount))).
Proof. reflexivity. Qed.

Example missing_file :
  loadZipsFromCSV (oneFile "zips.csv" exampleRows) "nowhere.csv"
  = Some (Returned (None, Some (Errorf "error opening zips file: "
                                   (PathError "open nowhere.csv: no such file or directory")))).
Proof. reflexivity. Qed.

(** A JSON null element is loaded as a nil pointer, on which the index
    loop would panic; [main] loads CSV, where no nil pointer arises. *)
Example json_null_element :
  loadZipsFromJSON (oneFile "zips.json" [Json.Value (Json.Array [Json.Null])]) "zips.json"
  = Returned (Some [None], None) /\
  buildIndex (Some [None]) = Panicked "invalid memory address or nil pointer dereference".
Proof. split; reflexivity. Qed.

Example json_empty_array :
  loadZipsFromJSON (oneFile "zips.json" [Json.Value (Json.Array [])]) "zips.json"
  = Returned (Some [], None).
Proof. reflexivity. Qed.

(** When the write fails the status sent stays 200: the header went out
    with the first write, and [http.Error] only changes the map. *)
Example broken_connection :
  let w := zipsForCityHandler exampleIndex (Http.newResponse (Some (WriteError "broken pipe")))
             (request "GET" "/zips/city/seattle") in
  response w = (200%Z, jsonHeaders, "") /\
  Http.handlerHeader w !! "Content-Type" = Some ["text/plain; charset=utf-8"].
Proof. split; reflexivity. Qed.

(** ** Letter case *)








(** ** The index loop *)

Section IndexLoop.

Implicit Types (zi : zipIndex) (zips : list zipPtr) (k : string).

Lemma index_insert_eq zi k (g : zipSlice) : index (<[k := g]> zi) k = g.
Proof. unfold index. now rewrite lookup_insert_eq. Qed.

Lemma index_insert_ne zi k k' (g : zipSlice) :
  k <> k' -> index (<[k := g]> zi) k' = index zi k'.
Proof. intros H. unfold index. now rewrite lookup_insert_ne. Qed.

(** The loop panics on no sequence without nil pointers, and files every
    record at the end of the group of its key. *)
Lemma indexLoop_lookup zips : forall zi,
  Forall is_Some zips ->
  exists zi', indexLoop zi zips = Returned zi' /\
    forall k, zi' !! k =
      match filter (fun p => keyOf p = Some k) zips with
      | [] => zi !! k
      | g => Some (Some (elems (index zi k) ++ g))
      end.
Proof.
  induction zips as [|p zips IH]; intros zi Hn.
  - exists zi. split; [reflexivity|]. intros k. now rewrite filter_nil.
  - apply Forall_cons in Hn as [[z ->] Hn]. simpl.
    destruct (IH (<[Strings.ToLower (City z) :=
                    append (index zi (Strings.ToLower (City z))) (Some z)]> zi) Hn)
      as (zi' & -> & Hzi').
    exists zi'. split; [reflexivity|]. intros k. rewrite Hzi'.
    rewrite filter_cons. simpl.
    destruct (decide (Some (Strings.ToLower (City z)) = Some k)) as [E|E].
    + injection E as <-. rewrite lookup_insert_eq, index_insert_eq.
      unfold append; simpl.
      destruct (filter _ zips); [reflexivity|].
      now rewrite <- app_assoc.
    + assert (Strings.ToLower (City z) <> k) by congruence.
      rewrite lookup_insert_ne, index_insert_ne by assumption.
      reflexivity.
Qed.

(** Filing one record adds one entry. *)
Lemma entries_append zi k (p : zipPtr) :
  entries (<[k := append (index zi k) p]> zi) = S (entries zi).
Proof.
  assert (Hcomm : forall (m : zipIndex) (j1 j2 : string) (z1 z2 : zipSlice) (y : nat),
             j1 <> j2 -> m !! j1 = Some z1 -> m !! j2 = Some z2 ->
             length (elems z1) + (length (elems z2) + y)
             = length (elems z2) + (length (elems z1) + y)) by (intros; lia).
  unfold entries, index, append. destruct (zi !! k) as [g|] eqn:E.
  - rewrite <- (insert_delete_eq zi).
    rewrite map_fold_insert_L by (apply Hcomm || apply lookup_delete_eq).
    rewrite (map_fold_delete_L _ _ k g zi) by (apply Hcomm || exact E).
    change (elems (Some (elems g ++ [p]))) with (elems g ++ [p]).
    rewrite length_app. simpl. lia.
  - rewrite map_fold_insert_L by (apply Hcomm || exact E). reflexivity.
Qed.

Lemma indexLoop_entries zips : forall zi zi',
  indexLoop zi zips = Returned zi' -> entries zi' = entries zi + length zips.
Proof.
  induction zips as [|[z|] zips IH]; intros zi zi' H; simpl in H.
  - injection H as <-. simpl. lia.
  - apply IH in H. rewrite H, entries_append. simpl. lia.
  - discriminate.
Qed.

End IndexLoop.

Lemma buildIndex_entries (zips : zipSlice) (zi : zipIndex) :
  buildIndex zips = Returned zi -> entries zi = length (elems zips).
Proof. intros H. apply indexLoop_entries in H. rewrite H. reflexivity. Qed.

Lemma buildIndex_lookup (zips : zipSlice) :
  Forall is_Some (elems zips) ->
  exists zi, buildIndex zips = Returned zi /\
    forall k, zi !! k =
      match filter (fun p => keyOf p = Some k) (elems zips) with
      | [] => None
      | g => Some (Some g)
      end.
Proof.
  intros Hn. destruct (indexLoop_lookup (elems zips) ∅ Hn) as (zi & Hzi & Hk).
  exists zi. split; [exact Hzi|]. intros k. rewrite Hk.
  destruct (filter _ (elems zips)); [apply lookup_empty|].
  unfold index. now rewrite lookup_empty.
Qed.

(** An index whose lookups are the groups of [zips] puts every record in
    the group of its key and in no other. *)
Lemma groupedByCity_of_lookup (zips : zipSlice) (zi : zipIndex) :
  (forall k, zi !! k =
     match filter (fun p => keyOf p = Some k) (elems zips) with
     | [] => None
     | g => Some (Some g)
     end) ->
  entries zi = length (elems zips) ->
  groupedByCity zips zi.
Proof.
  intros Hk He.
  assert (Hg : forall k, elems (index zi k)
                         = filter (fun p => keyOf p = Some k) (elems zips)).
  { intros k. unfold index. rewrite Hk. now destruct (filter _ (elems zips)). }
  unfold groupedByCity. split; [exact Hg|]. repeat split.
  - intros z Hz. rewrite Hg. apply list_elem_of_filter. split; [reflexivity|exact Hz].
  - rewrite Hg in H. now apply list_elem_of_filter in H as [_ ?].
  - rewrite Hg in H. apply list_elem_of_filter in H as [E _].
    simpl in E. congruence.
  - rewrite elem_of_dom, Hk. intros [g Hgk].
    destruct (filter _ (elems zips)) as [|p l] eqn:Ef; [discriminate Hgk|].
    assert (Hp : p ∈ filter (fun p => keyOf p = Some k) (elems zips))
      by (rewrite Ef; left).
    apply list_elem_of_filter in Hp as [E Hp].
    destruct p as [z|]; [|discriminate]. exists z. simpl in E. injection E as E.
    split; [exact Hp|exact E].
  - intros (z & Hz & <-). rewrite elem_of_dom, Hk.
    assert (Hp : Some z ∈ filter (fun p => keyOf p = Some (Strings.ToLower (City z)))
                           (elems zips))
      by (apply list_elem_of_filter; split; [reflexivity|exact Hz]).
    destruct (filter _ (elems zips)); [inversion Hp|eauto].
  - intros k. rewrite Hg. apply sublist_filter.
  - exact He.
Qed.

(** C1: after index construction from a record sequence (one without nil
    pointers, as every loaded sequence is) each record is in exactly one
    group, the group of the lower-cased form of its city, and each group
    lists its records in their input order. *)
Theorem index_groups_by_lowercase_city (zips : zipSlice) :
  Forall is_Some (elems zips) ->
  exists zi, buildIndex zips = Returned zi /\ groupedByCity zips zi.
Proof.
  intros Hn. destruct (buildIndex_lookup zips Hn) as (zi & Hb & Hk).
  exists zi. split; [exact Hb|].
  apply groupedByCity_of_lookup; [exact Hk|now apply buildIndex_entries].
Qed.

Lemma index_groups_by_lowercase_city_witness :
  Forall is_Some (elems exampleZips) /\
  exists zi, buildIndex exampleZips = Returned zi /\ groupedByCity exampleZips zi.
Proof.
  assert (H : Forall is_Some (elems exampleZips))
    by (repeat constructor; eexists; reflexivity).
  split; [exact H|]. exact (index_groups_by_lowercase_city exampleZips H).
Defined.



(** ** The CSV reader and the load loop *)

Section CsvReader.

Variable width : nat.
Hypothesis width_pos : 0 < width.

Implicit Types (rest : list Csv.line) (fields : list string).

Lemma Read_header fields rest :
  Csv.Read (Csv.NewReader (Csv.Fields fields :: rest))
  = (fields, None, Csv.mkReader rest (Z.of_nat (length fields))).
Proof. reflexivity. Qed.

Lemma Read_same_count fields rest :
  length fields = width ->
  Csv.Read (Csv.mkReader (Csv.Fields fields :: rest) (Z.of_nat width))
  = (fields, None, Csv.mkReader rest (Z.of_nat width)).
Proof.
  intros E. unfold Csv.Read; simpl.
  destruct (Z.ltb_spec 0 (Z.of_nat width)); [|lia].
  destruct (Z.eqb_spec (Z.of_nat (length fields)) (Z.of_nat width)); [reflexivity|lia].
Qed.

Lemma Read_other_count fields rest :
  length fields <> width ->
  Csv.Read (Csv.mkReader (Csv.Fields fields :: rest) (Z.of_nat width))
  = (fields, Some ErrFieldCount, Csv.mkReader rest (Z.of_nat width)).
Proof.
  intros E. unfold Csv.Read; simpl.
  destruct (Z.ltb_spec 0 (Z.of_nat width)); [|lia].
  destruct (Z.eqb_spec (Z.of_nat (length fields)) (Z.of_nat width)); [lia|reflexivity].
Qed.

End CsvReader.

Lemma Read_pending (r : Csv.Reader) :
  length (Csv.pending (Csv.Read r).2) <= length (Csv.pending r) /\
  ((Csv.Read r).1.2 <> Some EOF -> length (Csv.pending (Csv.Read r).2) < length (Csv.pending r)).
Proof.
  unfold Csv.Read. destruct r as [[|[fields|msg] rest] n]; simpl.
  - split; [lia|congruence].
  - destruct (0 <? n)%Z; [destruct (_ =? n)%Z|destruct (n =? 0)%Z]; simpl; split; lia.
  - split; lia.
Qed.

(** The loop always finishes within the fuel [loadZipsFromCSV] gives it. *)
Lemma readLoop_total (fuel : nat) : forall (reader : Csv.Reader) (zips : zipSlice),
  length (Csv.pending reader) < fuel -> is_Some (readLoop fuel reader zips).
Proof.
  induction fuel as [|fuel IH]; intros reader zips Hf; [lia|].
  simpl. pose proof (Read_pending reader) as [_ Hlt].
  destruct (Csv.Read reader) as [[record err] reader']; simpl in *.
  destruct err as [e|].
  - destruct e; eauto.
  - destruct (record !! 0), (record !! 3), (record !! 6); eauto.
    apply IH. assert (length (Csv.pending reader') < length (Csv.pending reader))
      by (apply Hlt; discriminate). lia.
Qed.

Lemma loadZipsFromCSV_total (fs : string -> option (list Csv.line)) (filePath : string) :
  is_Some (loadZipsFromCSV fs filePath).
Proof.
  unfold loadZipsFromCSV, Os.Open. destruct (fs filePath) as [f|]; [|eauto].
  destruct (Csv.Read (Csv.NewReader f)) as [[record err] reader].
  destruct err; [eauto|]. apply readLoop_total. lia.
Qed.

(** Reaching the end of the stream inside the loop returns what has been
    read. *)
Lemma readLoop_at_end (fuel : nat) (reader : Csv.Reader) (zips : zipSlice) :
  Csv.pending reader = [] ->
  readLoop (S fuel) reader zips = Some (Returned (zips, None)).
Proof. intros E. simpl. unfold Csv.Read. now rewrite E. Qed.

(** Rows of the header's width, at least seven, are all turned into
    records. *)
Lemma readLoop_valid (width : nat) (rows : list Csv.line) :
  7 <= width -> Forall (rowOK width) rows ->
  forall (fuel : nat) (acc : list zipPtr),
  length rows < fuel ->
  readLoop fuel (Csv.mkReader rows (Z.of_nat width)) (Some acc)
  = Some (Returned (Some (acc ++ (recordOfRow <$> rows)), None)).
Proof.
  intros Hw Hrows. induction Hrows as [|row rows Hrow Hrows IH]; intros fuel acc Hf.
  - destruct fuel; [simpl in Hf; lia|]. rewrite readLoop_at_end by reflexivity.
    simpl. now rewrite app_nil_r.
  - destruct fuel; [simpl in Hf; lia|]. destruct row as [fields|msg]; [|contradiction].
    simpl in Hrow. cbn [readLoop]. rewrite Read_same_count by (lia || assumption).
    destruct (lookup_lt_is_Some_2 fields 0) as [c0 E0]; [lia|].
    destruct (lookup_lt_is_Some_2 fields 3) as [c3 E3]; [lia|].
    destruct (lookup_lt_is_Some_2 fields 6) as [c6 E6]; [lia|].
    rewrite E0, E3, E6. unfold append. cbn [elems default].
    rewrite IH by (simpl in Hf; lia).
    rewrite fmap_cons. cbn [recordOfRow]. rewrite E0, E3, E6.
    now rewrite <- app_assoc.
Qed.

(** The loop never appends a nil pointer. *)
Lemma readLoop_no_nil (fuel : nat) : forall (reader : Csv.Reader) (acc : list zipPtr) (zips : zipSlice),
  Forall is_Some acc ->
  readLoop fuel reader (Some acc) = Some (Returned (zips, None)) ->
  Forall is_Some (elems zips).
Proof.
  induction fuel as [|fuel IH]; intros reader acc zips Hacc; [discriminate|].
  simpl. destruct (Csv.Read reader) as [[record err] reader'].
  destruct err as [e|].
  - destruct e; intros H; inversion H; subst; assumption.
  - destruct (record !! 0), (record !! 3), (record !! 6); try discriminate.
    unfold append. cbn [elems default]. apply IH.
    apply Forall_app; split; [assumption|]. repeat constructor. eexists; reflexivity.
Qed.

Lemma loadZipsFromCSV_no_nil (fs : string -> option (list Csv.line)) (filePath : string)
    (zips : zipSlice) :
  loadZipsFromCSV fs filePath = Some (Returned (zips, None)) ->
  Forall is_Some (elems zips).
Proof.
  unfold loadZipsFromCSV, Os.Open. destruct (fs filePath) as [f|]; [|discriminate].
  destruct (Csv.Read (Csv.NewReader f)) as [[record err] reader].
  destruct err; [discriminate|]. apply readLoop_no_nil. constructor.
Qed.

(** What [main] serves is grouped in this way: the sequence it loaded has
    no nil pointer. *)
Lemma main_index_grouped (env : string -> string) (fs : string -> option (list Csv.line))
    (addr : string) (zi : zipIndex) :
  main env fs = Some (Serving addr zi) ->
  exists zips,
    loadZipsFromCSV fs "../data/zips.csv" = Some (Returned (zips, None)) /\
    buildIndex zips = Returned zi /\ groupedByCity zips zi.
Proof.
  unfold main. destruct (_ =? 0)%nat; [discriminate|].
  destruct (loadZipsFromCSV fs "../data/zips.csv") as [[[zips [e|]]|msg]|] eqn: Hl;
    try discriminate.
  destruct (buildIndex_lookup zips (loadZipsFromCSV_no_nil _ _ _ Hl)) as (zi' & Hb & Hk).
  rewrite Hb. intros H. injection H as _ <-.
  exists zips. split; [reflexivity|]. split; [exact Hb|].
  apply groupedByCity_of_lookup; [exact Hk|now apply buildIndex_entries].
Qed.



(** ** Rows the reader rejects *)

Lemma shortRow_not_OK (width : nat) (l : Csv.line) :
  7 <= width -> shortRow l -> ~ rowOK width l.
Proof. destruct l; simpl; lia. Qed.

(** With a header of at least seven fields, the first row of another width
    (or that does not tokenize) ends the loop with the reader's error and
    the nil slice. *)
Lemma readLoop_bad_row (width : nat) (rows : list Csv.line) :
  7 <= width -> Exists (fun l => ~ rowOK width l) rows ->
  forall (fuel : nat) (acc : list zipPtr),
  length rows < fuel ->
  exists e,
    readLoop fuel (Csv.mkReader rows (Z.of_nat width)) (Some acc)
    = Some (Returned (None, Some (Errorf "error loading zips from CSV: " e))) /\
    (e = ErrFieldCount \/ exists msg, e = ParseError msg).
Proof.
  intros Hw. induction rows as [|row rows IH]; intros Hbad fuel acc Hf.
  - inversion Hbad.
  - destruct fuel; [simpl in Hf; lia|]. destruct row as [fields|msg].
    + destruct (decide (length fields = width)) as [E|E].
      * cbn [readLoop]. rewrite Read_same_count by (lia || assumption).
        destruct (lookup_lt_is_Some_2 fields 0) as [c0 E0]; [lia|].
        destruct (lookup_lt_is_Some_2 fields 3) as [c3 E3]; [lia|].
        destruct (lookup_lt_is_Some_2 fields 6) as [c6 E6]; [lia|].
        rewrite E0, E3, E6. unfold append. cbn [elems default].
        apply IH; [|simpl in Hf; lia].
        apply Exists_cons in Hbad as [Hbad|Hbad]; [|exact Hbad].
        exfalso. apply Hbad. exact E.
      * cbn [readLoop]. rewrite Read_other_count by (lia || assumption).
        exists ErrFieldCount. split; [reflexivity|now left].
    + exists (ParseError msg). split; [reflexivity|right; eauto].
Qed.

(** C5, as the code has it: when the header row has at least seven fields,
    a later row with fewer than seven fields fails the whole load: the nil
    sequence comes back with the reader's error, and [main] stops with a
    fatal error before any index exists. *)
Theorem loadZipsFromCSV_short_row_fails (fs : string -> option (list Csv.line))
    (filePath : string) (header : list string) (rows : list Csv.line) :
  fs filePath = Some (Csv.Fields header :: rows) ->
  7 <= length header ->
  Exists shortRow rows ->
  (exists e,
     loadZipsFromCSV fs filePath
     = Some (Returned (None, Some (Errorf "error loading zips from CSV: " e))) /\
     (e = ErrFieldCount \/ exists msg, e = ParseError msg)) /\
  (filePath = "../data/zips.csv" ->
   forall env, exists msg, main env fs = Some (Fatal msg)).
Proof.
  intros Hfs Hw Hshort.
  assert (Hload : exists e,
     loadZipsFromCSV fs filePath
     = Some (Returned (None, Some (Errorf "error loading zips from CSV: " e))) /\
     (e = ErrFieldCount \/ exists msg, e = ParseError msg)).
  { unfold loadZipsFromCSV, Os.Open. rewrite Hfs, Read_header. cbn [Csv.pending].
    apply readLoop_bad_row; [exact Hw| |lia].
    eapply Exists_impl; [exact Hshort|]. intros l. now apply shortRow_not_OK. }
  split; [exact Hload|]. intros -> env. destruct Hload as (e & Hload & _).
  unfold main. rewrite Hload. destruct (_ =? 0)%nat; eauto.
Qed.

Lemma loadZipsFromCSV_short_row_fails_witness :
  loadZipsFromCSV (oneFile "../data/zips.csv" raggedRows) "../data/zips.csv"
  = Some (Returned (None, Some (Errorf "error loading zips from CSV: " ErrFieldCount))) /\
  exists msg, main (fun _ => "localhost:4000") (oneFile "../data/zips.csv" raggedRows)
              = Some (Fatal msg).
Proof.
  assert (Hw : 7 <= 7) by lia.
  assert (Hs : Exists shortRow (tail raggedRows))
    by (apply Exists_cons_hd; simpl; lia).
  destruct (loadZipsFromCSV_short_row_fails (oneFile "../data/zips.csv" raggedRows)
              "../data/zips.csv" _ _ eq_refl Hw Hs) as [_ Hmain].
  split; [reflexivity|]. exact (Hmain eq_refl (fun _ => "localhost:4000")).
Defined.

(** C5 as stated fails: when the header itself has three fields, a row of
    three fields passes the reader and the loader panics on [record[3]];
    no parse error is returned. *)
Lemma loadZipsFromCSV_short_header_panics :
  Exists shortRow (tail shortRows) /\
  loadZipsFromCSV (oneFile "../data/zips.csv" shortRows) "../data/zips.csv"
  = Some (Panicked "index out of range") /\
  ~ (exists e, loadZipsFromCSV (oneFile "../data/zips.csv" shortRows) "../data/zips.csv"
               = Some (Returned (None, Some e))).
Proof.
  split; [apply Exists_cons_hd; simpl; lia|]. split; [reflexivity|].
  intros [e H]. discriminate H.
Qed.

(** ** End of stream *)




(** ** The path and the city argument *)

Lemma hasSlash_app (p c : string) :
  Path.hasSlash (p +:+ c) = Path.hasSlash p || Path.hasSlash c.
Proof.
  induction p as [|x p IH]; simpl; [reflexivity|]. now rewrite IH, orb_assoc.
Qed.

Lemma afterLastSlash_noslash (s : string) :
  Path.hasSlash s = false -> Path.afterLastSlash s = s.
Proof.
  destruct s as [|c rest]; simpl; [reflexivity|].
  intros H. apply orb_false_iff in H as [-> ->]. reflexivity.
Qed.

Lemma throughLastSlash_noslash (s : string) :
  Path.hasSlash s = false -> Path.throughLastSlash s = "".
Proof.
  destruct s as [|c rest]; simpl; [reflexivity|].
  intros H. apply orb_false_iff in H as [-> ->]. reflexivity.
Qed.

(** Whatever precedes a slash has no part in the last segment. *)
Lemma afterLastSlash_prefix (p c : string) :
  Path.afterLastSlash (p +:+ String "/" c) = Path.afterLastSlash c.
Proof.
  induction p as [|x p IH]; simpl.
  - destruct (Path.hasSlash c) eqn:E; [reflexivity|].
    now rewrite afterLastSlash_noslash.
  - rewrite hasSlash_app. simpl. now rewrite orb_true_r.
Qed.

Lemma throughLastSlash_prefix (p c : string) :
  Path.throughLastSlash (p +:+ String "/" c) = p +:+ String "/" (Path.throughLastSlash c).
Proof.
  induction p as [|x p IH]; simpl.
  - destruct (Path.hasSlash c) eqn:E; [reflexivity|].
    now rewrite throughLastSlash_noslash.
  - rewrite hasSlash_app. simpl. now rewrite orb_true_r, IH.
Qed.

(** [path.Split] cuts its argument in two, the second part has no slash
    and the first is empty or ends in one. *)
Lemma Split_spec (s : string) :
  s = Path.throughLastSlash s +:+ Path.afterLastSlash s /\
  Path.hasSlash (Path.afterLastSlash s) = false /\
  (Path.throughLastSlash s = "" \/ exists d, Path.throughLastSlash s = d +:+ "/").
Proof.
  induction s as [|c s (IH1 & IH2 & IH3)]; simpl; [auto|].
  destruct (Path.hasSlash s) eqn:Es.
  - split; [now rewrite IH1 at 1|]. split; [exact IH2|]. right.
    destruct IH3 as [E|[d E]].
    + rewrite E in IH1. change (s = Path.afterLastSlash s) in IH1.
      rewrite <- IH1, Es in IH2. discriminate.
    + exists (String c d). now rewrite E.
  - destruct (Ascii.eqb_spec c "/"%char) as [->|Hc].
    + split; [reflexivity|]. split; [exact Es|]. right. now exists "".
    + split; [reflexivity|]. split; [|now left]. simpl. rewrite Es.
      now destruct (Ascii.eqb_spec c "/"%char).
Qed.




(** Under the registered prefix. *)
Lemma Split_under_prefix (rest : string) :
  Path.Split ("/zips/city/" +:+ rest)
  = ("/zips/city/" +:+ Path.throughLastSlash rest, Path.afterLastSlash rest).
Proof.
  change ("/zips/city/" +:+ rest) with ("/zips/city" +:+ String "/" rest).
  unfold Path.Split. now rewrite afterLastSlash_prefix, throughLastSlash_prefix.
Qed.

Lemma afterLastSlash_under_prefix (rest : string) :
  Path.afterLastSlash ("/zips/city/" +:+ rest) = Path.afterLastSlash rest.
Proof. exact (f_equal snd (Split_under_prefix rest)). Qed.

(** ** The handler *)


(** On a healthy connection and a writer nothing else wrote to, the
    response is 200, the two headers, and the group of the lower-cased city
    as JSON with a newline. *)
Lemma handler_healthy (zi : zipIndex) (r : Http.Request) :
  response (zipsForCityHandler zi (Http.newResponse None) r)
  = (Http.StatusOK, jsonHeaders,
     Json.marshal (index zi (Strings.ToLower (Path.afterLastSlash (Http.Path (Http.Url r)))))
     +:+ Json.newline).
Proof. reflexivity. Qed.





(** C4, as the code has it: for a city with no group in the index the
    response is a success, status 200 with the two headers, and its body
    is the JSON of the nil slice, [null], followed by a newline.  The
    status is 200 whatever the connection does. *)
Theorem absent_city_is_null (zi : zipIndex) (r : Http.Request) :
  zi !! Strings.ToLower (Path.Split (Http.Path (Http.Url r))).2 = None ->
  response (zipsForCityHandler zi (Http.newResponse None) r)
  = (Http.StatusOK, jsonHeaders, "null" +:+ Json.newline) /\
  forall connErr,
    Http.status (zipsForCityHandler zi (Http.newResponse connErr) r) = Http.StatusOK.
Proof.
  intros H. split.
  - change (zi !! Strings.ToLower (Path.afterLastSlash (Http.Path (Http.Url r))) = None) in H.
    rewrite handler_healthy. unfold index. now rewrite H.
  - intros [e|]; reflexivity.
Qed.

Lemma absent_city_is_null_witness :
  response (zipsForCityHandler exampleIndex (Http.newResponse None)
              (request "GET" "/zips/city/atlantis"))
  = (Http.StatusOK, jsonHeaders, "null" +:+ Json.newline).
Proof.
  assert (H : exampleIndex !! Strings.ToLower
                (Path.Split (Http.Path (Http.Url (request "GET" "/zips/city/atlantis")))).2
              = None) by (vm_compute; reflexivity).
  exact (proj1 (absent_city_is_null exampleIndex (request "GET" "/zips/city/atlantis") H)).
Defined.

(** C4 as stated fails: the body for an absent city is not the empty
    array. *)
Lemma absent_city_body_not_empty_array :
  exampleIndex !! "atlantis" = None /\
  Http.status (zipsForCityHandler exampleIndex (Http.newResponse None)
                 (request "GET" "/zips/city/atlantis")) = 200%Z /\
  Http.body (zipsForCityHandler exampleIndex (Http.newResponse None)
               (request "GET" "/zips/city/atlantis")) = "null" +:+ Json.newline /\
  Http.body (zipsForCityHandler exampleIndex (Http.newResponse None)
               (request "GET" "/zips/city/atlantis")) <> "[]" /\
  Http.body (zipsForCityHandler exampleIndex (Http.newResponse None)
               (request "GET" "/zips/city/atlantis")) <> "[]" +:+ Json.newline.
Proof.
  split; [vm_compute; reflexivity|]. split; [reflexivity|]. split; [reflexivity|].
  split; intros H; vm_compute in H; discriminate H.
Qed.

(** C8: every response of the handler carries
    [Content-Type: application/json; charset=utf-8] and
    [Access-Control-Allow-Origin: *], whatever the index holds for the
    city and whether or not the write to the connection succeeds. *)
Theorem handler_sets_headers (zi : zipIndex) (w : Http.ResponseWriter) (r : Http.Request) :
  Http.wroteHeader w = false ->
  "application/json; charset=utf-8"
    ∈ Http.sentHeader (zipsForCityHandler zi w r) !!! "Content-Type" /\
  "*" ∈ Http.sentHeader (zipsForCityHandler zi w r) !!! "Access-Control-Allow-Origin" /\
  (Http.handlerHeader w = ∅ ->
   Http.sentHeader (zipsForCityHandler zi w r) = jsonHeaders).
Proof.
  intros Hw.
  assert (Hs : Http.sentHeader (zipsForCityHandler zi w r)
               = Http.Add (Http.Add (Http.handlerHeader w) "Content-Type"
                             "application/json; charset=utf-8")
                   "Access-Control-Allow-Origin" "*").
  { unfold zipsForCityHandler, Path.Split, Json.Encode, Http.Write, Http.HeaderAdd,
      Http.WriteHeader. simpl. rewrite Hw. simpl.
    destruct (Http.connErr w); reflexivity. }
  rewrite Hs. unfold Http.Add. split; [|split].
  - rewrite lookup_total_insert_ne by discriminate. rewrite lookup_total_insert_eq.
    apply elem_of_app. right. left.
  - rewrite lookup_total_insert_eq. apply elem_of_app. right. left.
  - intros ->. reflexivity.
Qed.

Lemma handler_sets_headers_witness :
  Http.sentHeader (zipsForCityHandler exampleIndex
                     (Http.newResponse (Some (WriteError "broken pipe")))
                     (request "GET" "/zips/city/atlantis"))
  = jsonHeaders.
Proof.
  exact (proj2 (proj2 (handler_sets_headers exampleIndex
                         (Http.newResponse (Some (WriteError "broken pipe")))
                         (request "GET" "/zips/city/atlantis") eq_refl)) eq_refl).
Defined.

(** C9: for a path under the registered prefix [/zips/city/] the city
    argument is the last segment of what follows the prefix, taken as it
    stands in the path: what follows the prefix is a directory part, empty
    or ending in a slash, followed by the argument, which holds no slash,
    and the lookup is made with the lower-cased argument. *)
Theorem city_argument_is_last_segment (zi : zipIndex) (r : Http.Request) (rest : string) :
  Http.Path (Http.Url r) = "/zips/city/" +:+ rest ->
  exists dir city,
    rest = dir +:+ city /\
    Path.hasSlash city = false /\
    (dir = "" \/ exists d, dir = d +:+ "/") /\
    Path.Split (Http.Path (Http.Url r)) = ("/zips/city/" +:+ dir, city) /\
    (Path.hasSlash rest = false -> city = rest) /\
    response (zipsForCityHandler zi (Http.newResponse None) r)
    = (Http.StatusOK, jsonHeaders,
       Json.marshal (index zi (Strings.ToLower city)) +:+ Json.newline).
Proof.
  intros H. destruct (Split_spec rest) as (Hcut & Hno & Hdir).
  exists (Path.throughLastSlash rest), (Path.afterLastSlash rest).
  split; [exact Hcut|]. split; [exact Hno|]. split; [exact Hdir|].
  split; [|split].
  - rewrite H. apply Split_under_prefix.
  - apply afterLastSlash_noslash.
  - rewrite handler_healthy, H. now rewrite afterLastSlash_under_prefix.
Qed.

Lemma city_argument_is_last_segment_witness :
  exists dir city,
    "new%20york" = dir +:+ city /\
    Path.hasSlash city = false /\
    (dir = "" \/ exists d, dir = d +:+ "/") /\
    Path.Split "/zips/city/new%20york" = ("/zips/city/" +:+ dir, city) /\
    (Path.hasSlash "new%20york" = false -> city = "new%20york") /\
    response (zipsForCityHandler exampleIndex (Http.newResponse None)
                (request "GET" "/zips/city/new%20york"))
    = (Http.StatusOK, jsonHeaders,
       Json.marshal (index exampleIndex (Strings.ToLower city)) +:+ Json.newline).
Proof.
  exact (city_argument_is_last_segment exampleIndex (request "GET" "/zips/city/new%20york")
           "new%20york" eq_refl).
Defined.



(** * Further properties of the code *)

(** ** loadZipsFromCSV: when it succeeds, fails, panics *)

(** Under a header of one to six fields a first row of the header's width
    passes the reader and [record[6]] (or an earlier index) is out of
    range. *)
Lemma readLoop_narrow_panics (width fuel : nat) (fields : list string)
    (rest : list Csv.line) (zips : zipSlice) :
  0 < width < 7 -> length fields = width ->
  readLoop (S fuel) (Csv.mkReader (Csv.Fields fields :: rest) (Z.of_nat width)) zips
  = Some (Panicked "index out of range").
Proof.
  intros Hw Hl. cbn [readLoop]. rewrite Read_same_count by (lia || assumption).
  rewrite (lookup_ge_None_2 fields 6) by lia.
  destruct (fields !! 0), (fields !! 3); reflexivity.
Qed.

(** A first row the reader rejects ends the loop with the reader's
    error, whatever the width. *)
Lemma readLoop_first_bad (width fuel : nat) (row : Csv.line) (rest : list Csv.line)
    (zips : zipSlice) :
  0 < width -> ~ rowOK width row ->
  exists e,
    readLoop (S fuel) (Csv.mkReader (row :: rest) (Z.of_nat width)) zips
    = Some (Returned (None, Some (Errorf "error loading zips from CSV: " e))).
Proof.
  intros Hw Hbad. destruct row as [fields|msg].
  - cbn [readLoop]. rewrite Read_other_count by (lia || exact Hbad). eauto.
  - eauto.
Qed.

(** With a header of at least seven fields the loop returns: the records,
    or the reader's error. *)
Lemma readLoop_wide_returns (width : nat) (rows : list Csv.line) (fuel : nat)
    (acc : list zipPtr) :
  7 <= width -> length rows < fuel ->
  exists res, readLoop fuel (Csv.mkReader rows (Z.of_nat width)) (Some acc)
              = Some (Returned res).
Proof.
  intros Hw Hf. destruct (decide (Forall (rowOK width) rows)) as [Hall|Hnot].
  - rewrite readLoop_valid by assumption. eauto.
  - apply not_Forall_Exists in Hnot; [|apply _].
    destruct (readLoop_bad_row width rows Hw Hnot fuel acc Hf) as (e & -> & _). eauto.
Qed.

(** The loop returns an error with the nil slice, and no error with a
    non-nil slice that holds no nil pointer. *)
Lemma readLoop_result_shape (fuel : nat) :
  forall (reader : Csv.Reader) (acc : list zipPtr) (zips : zipSlice) (err : option error),
  Forall is_Some acc ->
  readLoop fuel reader (Some acc) = Some (Returned (zips, err)) ->
  (is_Some err -> zips = None) /\
  (err = None -> exists l, zips = Some l /\ Forall is_Some l).
Proof.
  induction fuel as [|fuel IH]; intros reader acc zips err Hacc; [discriminate|].
  simpl. destruct (Csv.Read reader) as [[record e] reader'].
  destruct e as [e|].
  - destruct e; intros H; inversion H; subst;
      (split; [intros [? ?]; (discriminate || reflexivity)|]);
      intros; (discriminate || eauto).
  - destruct (record !! 0), (record !! 3), (record !! 6); try discriminate.
    unfold append. apply IH.
    apply Forall_app; split; [exact Hacc|]. repeat constructor. eexists; reflexivity.
Qed.

(** X1: with a header row of at least seven fields [loadZipsFromCSV] never
    panics, whatever the rows hold: it returns the records or an error. *)
Theorem loadZipsFromCSV_wide_header_returns (fs : string -> option (list Csv.line))
    (filePath : string) (header : list string) (rows : list Csv.line) :
  fs filePath = Some (Csv.Fields header :: rows) ->
  7 <= length header ->
  exists res, loadZipsFromCSV fs filePath = Some (Returned res).
Proof.
  intros Hfs Hw. unfold loadZipsFromCSV, Os.Open. rewrite Hfs, Read_header.
  cbn [Csv.pending]. apply readLoop_wide_returns; [exact Hw|lia].
Qed.

Lemma loadZipsFromCSV_wide_header_returns_witness :
  exists res, loadZipsFromCSV (oneFile "zips.csv" raggedRows) "zips.csv"
              = Some (Returned res).
Proof.
  assert (Hw : 7 <= 7) by lia.
  exact (loadZipsFromCSV_wide_header_returns (oneFile "zips.csv" raggedRows) "zips.csv"
           _ _ eq_refl Hw).
Defined.

(** X2: [loadZipsFromCSV] succeeds on exactly these files with a header
    (of at least one field, as every CSV record has): every later row
    tokenizes and has the header's width, and either there is no later row
    or the width is at least seven.  It then returns the record of each
    row, in order. *)
Theorem loadZipsFromCSV_succeeds_iff (fs : string -> option (list Csv.line))
    (filePath : string) (header : list string) (rows : list Csv.line) :
  fs filePath = Some (Csv.Fields header :: rows) ->
  0 < length header ->
  ((exists zips, loadZipsFromCSV fs filePath = Some (Returned (zips, None))) <->
   Forall (rowOK (length header)) rows /\ (rows = [] \/ 7 <= length header)) /\
  (forall zips, loadZipsFromCSV fs filePath = Some (Returned (zips, None)) ->
     zips = Some (recordOfRow <$> rows)).
Proof.
  intros Hfs Hpos.
  assert (Hload : loadZipsFromCSV fs filePath
                  = readLoop (S (length rows))
                      (Csv.mkReader rows (Z.of_nat (length header))) (Some [])).
  { unfold loadZipsFromCSV, Os.Open. now rewrite Hfs, Read_header. }
  rewrite Hload.
  assert (Hok : Forall (rowOK (length header)) rows /\ (rows = [] \/ 7 <= length header) ->
                readLoop (S (length rows))
                  (Csv.mkReader rows (Z.of_nat (length header))) (Some [])
                = Some (Returned (Some (recordOfRow <$> rows), None))).
  { intros [Hall [->|Hw]]; [reflexivity|]. now rewrite readLoop_valid by (assumption || lia). }
  assert (Hconv : forall zips,
            readLoop (S (length rows))
              (Csv.mkReader rows (Z.of_nat (length header))) (Some [])
            = Some (Returned (zips, None)) ->
            Forall (rowOK (length header)) rows /\ (rows = [] \/ 7 <= length header)).
  { intros zips H. destruct (decide (7 <= length header)) as [Hw|Hw].
    - split; [|now right].
      destruct (decide (Forall (rowOK (length header)) rows)) as [Hall|Hnot]; [exact Hall|].
      apply not_Forall_Exists in Hnot; [|apply _].
      destruct (readLoop_bad_row _ rows Hw Hnot (S (length rows)) [])
        as (e & He & _); [lia|]. rewrite He in H. discriminate.
    - destruct rows as [|row rest]; [split; [constructor|now left]|].
      exfalso. destruct (decide (rowOK (length header) row)) as [Hrow|Hrow].
      + destruct row as [fields|msg]; [|contradiction]. simpl in Hrow.
        rewrite readLoop_narrow_panics in H by (lia || assumption). discriminate.
      + destruct (readLoop_first_bad (length header) (length (row :: rest)) row rest
                    (Some []) Hpos Hrow) as [e He].
        rewrite He in H. discriminate. }
  split; [split|].
  - intros [zips H]. now apply (Hconv zips).
  - intros H. rewrite (Hok H). eauto.
  - intros zips H. rewrite (Hok (Hconv zips H)) in H. now inversion H.
Qed.

Lemma loadZipsFromCSV_succeeds_iff_witness :
  (exists zips, loadZipsFromCSV (oneFile "zips.csv" exampleRows) "zips.csv"
                = Some (Returned (zips, None))) /\
  ~ (exists zips, loadZipsFromCSV (oneFile "zips.csv" shortRows) "zips.csv"
                  = Some (Returned (zips, None))).
Proof.
  assert (H7 : 0 < 7) by lia. assert (H3 : 0 < 3) by lia.
  destruct (loadZipsFromCSV_succeeds_iff (oneFile "zips.csv" exampleRows) "zips.csv"
              _ _ eq_refl H7) as [[_ Hyes] _].
  destruct (loadZipsFromCSV_succeeds_iff (oneFile "zips.csv" shortRows) "zips.csv"
              _ _ eq_refl H3) as [[Hno _] _].
  split.
  - apply Hyes. split; [repeat constructor|right; simpl; lia].
  - intros H. apply Hno in H as [_ [H|H]]; [discriminate H|simpl in H; lia].
Defined.

(** X3: [loadZipsFromCSV] never returns a partial result: with an error
    the slice is nil, and without one it is a non-nil slice that holds no
    nil pointer. *)
Theorem loadZipsFromCSV_result_shape (fs : string -> option (list Csv.line))
    (filePath : string) (zips : zipSlice) (err : option error) :
  loadZipsFromCSV fs filePath = Some (Returned (zips, err)) ->
  (is_Some err -> zips = None) /\
  (err = None -> exists l, zips = Some l /\ Forall is_Some l).
Proof.
  unfold loadZipsFromCSV, Os.Open. destruct (fs filePath) as [f|].
  - destruct (Csv.Read (Csv.NewReader f)) as [[record e] reader].
    destruct e as [e|]; [|apply readLoop_result_shape; constructor].
    intros H; inversion H; subst. split; [reflexivity|discriminate].
  - intros H; inversion H; subst. split; [reflexivity|discriminate].
Qed.

Lemma loadZipsFromCSV_result_shape_witness :
  exists l, exampleZips = Some l /\ Forall is_Some l.
Proof.
  exact (proj2 (loadZipsFromCSV_result_shape (oneFile "zips.csv" exampleRows) "zips.csv"
                  exampleZips None eq_refl) eq_refl).
Defined.

(** X4: under a header of one to six fields, a first data row of the same
    width makes [loadZipsFromCSV] panic with an index out of range. *)
Theorem loadZipsFromCSV_narrow_header_panics (fs : string -> option (list Csv.line))
    (filePath : string) (header fields : list string) (rest : list Csv.line) :
  fs filePath = Some (Csv.Fields header :: Csv.Fields fields :: rest) ->
  0 < length header < 7 ->
  length fields = length header ->
  loadZipsFromCSV fs filePath = Some (Panicked "index out of range").
Proof.
  intros Hfs Hw Hl. unfold loadZipsFromCSV, Os.Open. rewrite Hfs, Read_header.
  cbn [Csv.pending]. now apply readLoop_narrow_panics.
Qed.

Lemma loadZipsFromCSV_narrow_header_panics_witness :
  loadZipsFromCSV (oneFile "zips.csv" shortRows) "zips.csv"
  = Some (Panicked "index out of range").
Proof.
  assert (Hw : 0 < 3 < 7) by lia.
  exact (loadZipsFromCSV_narrow_header_panics (oneFile "zips.csv" shortRows) "zips.csv"
           _ _ _ eq_refl Hw eq_refl).
Defined.

(** X5: the header row is read for its width only: two files that differ
    in nothing but the text of header fields are loaded alike. *)
Theorem loadZipsFromCSV_header_text_ignored (fs1 fs2 : string -> option (list Csv.line))
    (filePath : string) (header1 header2 : list string) (rows : list Csv.line) :
  fs1 filePath = Some (Csv.Fields header1 :: rows) ->
  fs2 filePath = Some (Csv.Fields header2 :: rows) ->
  length header1 = length header2 ->
  loadZipsFromCSV fs1 filePath = loadZipsFromCSV fs2 filePath.
Proof.
  intros H1 H2 Hl. unfold loadZipsFromCSV, Os.Open.
  now rewrite H1, H2, !Read_header, Hl.
Qed.

Lemma loadZipsFromCSV_header_text_ignored_witness :
  loadZipsFromCSV (oneFile "zips.csv" exampleRows) "zips.csv"
  = loadZipsFromCSV
      (oneFile "zips.csv" (Csv.Fields ["a"; "b"; "c"; "d"; "e"; "f"; "g"] :: tail exampleRows))
      "zips.csv".
Proof.
  exact (loadZipsFromCSV_header_text_ignored (oneFile "zips.csv" exampleRows)
           (oneFile "zips.csv"
              (Csv.Fields ["a"; "b"; "c"; "d"; "e"; "f"; "g"] :: tail exampleRows))
           "zips.csv" _ _ _ eq_refl eq_refl eq_refl).
Defined.

(** ** The index loop: panics, keys, groups, concatenation *)

Lemma indexLoop_panics (zips : list zipPtr) : forall zi : zipIndex,
  (exists msg, indexLoop zi zips = Panicked msg) <-> None ∈ zips.
Proof.
  induction zips as [|[z|] zips IH]; intros zi; simpl.
  - split; [intros [msg H]; discriminate|intros H; inversion H].
  - rewrite IH. split; [now right|]. intros H. now inversion H.
  - split; [left|eauto].
Qed.

Lemma indexLoop_returns (zips : list zipPtr) (zi : zipIndex) :
  (exists zi', indexLoop zi zips = Returned zi') <-> Forall is_Some zips.
Proof.
  split.
  - intros [zi' H]. apply Forall_forall. intros [z|] Hin; [eauto|].
    apply (indexLoop_panics zips zi) in Hin as [msg Hm]. congruence.
  - intros H. destruct (indexLoop_lookup zips zi H) as (zi' & Hzi' & _). eauto.
Qed.

Lemma indexLoop_app (a b : list zipPtr) : forall zi : zipIndex,
  indexLoop zi (a ++ b)
  = match indexLoop zi a with
    | Returned zi' => indexLoop zi' b
    | Panicked msg => Panicked msg
    end.
Proof.
  induction a as [|[z|] a IH]; intros zi; simpl; [reflexivity|apply IH|reflexivity].
Qed.

(** What the index holds under a key, when construction returns. *)
Lemma buildIndex_returned_lookup (zips : zipSlice) (zi : zipIndex) :
  buildIndex zips = Returned zi ->
  forall k, zi !! k =
    match filter (fun p => keyOf p = Some k) (elems zips) with
    | [] => None
    | g => Some (Some g)
    end.
Proof.
  intros Hb.
  assert (Hn : Forall is_Some (elems zips))
    by (apply (indexLoop_returns (elems zips) ∅); eauto).
  destruct (buildIndex_lookup zips Hn) as (zi' & Hb' & Hk).
  rewrite Hb in Hb'. now injection Hb' as <-.
Qed.

(** X6: what [main] serves is the index of what it loaded: whenever [main]
    gets to serving, the file [../data/zips.csv] was loaded without error
    and the index served groups exactly the loaded records by lower-cased
    city. *)
Theorem main_serves_loaded_index (env : string -> string)
    (fs : string -> option (list Csv.line)) (addr : string) (zi : zipIndex) :
  main env fs = Some (Serving addr zi) ->
  addr = env "ADDR" /\ addr <> "" /\
  exists zips,
    loadZipsFromCSV fs "../data/zips.csv" = Some (Returned (zips, None)) /\
    buildIndex zips = Returned zi /\ groupedByCity zips zi.
Proof.
  intros H. split; [|split].
  - unfold main in H. destruct (_ =? 0)%nat; [discriminate|].
    destruct (loadZipsFromCSV fs "../data/zips.csv") as [[[zips [e|]]|msg]|];
      try discriminate.
    destruct (buildIndex zips); [|discriminate]. now inversion H.
  - unfold main in H. destruct (env "ADDR") eqn:E; [discriminate|].
    simpl in H. destruct (loadZipsFromCSV fs "../data/zips.csv") as [[[zips [e|]]|msg]|];
      try discriminate.
    destruct (buildIndex zips); [|discriminate]. inversion H. discriminate.
  - now apply (main_index_grouped env fs addr zi).
Qed.

Lemma main_serves_loaded_index_witness :
  exists zips,
    loadZipsFromCSV (oneFile "../data/zips.csv" exampleRows) "../data/zips.csv"
    = Some (Returned (zips, None)) /\
    buildIndex zips = Returned exampleIndex /\ groupedByCity zips exampleIndex.
Proof.
  exact (proj2 (proj2 (main_serves_loaded_index (fun _ => "localhost:4000")
                         (oneFile "../data/zips.csv" exampleRows) "localhost:4000"
                         exampleIndex main_example))).
Defined.

Lemma readLoop_panic_message (fuel : nat) :
  forall (reader : Csv.Reader) (zips : zipSlice) (msg : string),
  readLoop fuel reader zips = Some (Panicked msg) -> msg = "index out of range".
Proof.
  induction fuel as [|fuel IH]; intros reader zips msg; [discriminate|].
  simpl. destruct (Csv.Read reader) as [[record e] reader'].
  destruct e as [e|]; [destruct e; discriminate|].
  destruct (record !! 0), (record !! 3), (record !! 6);
    try (intros H; now inversion H). apply IH.
Qed.

(** X7: the only way [main] crashes is the loader's index out of range:
    the index loop of [main] never meets a nil pointer, since the CSV
    loader returns none. *)
Theorem main_crash_is_index_out_of_range (env : string -> string)
    (fs : string -> option (list Csv.line)) (msg : string) :
  main env fs = Some (Crashed msg) ->
  msg = "index out of range" /\
  loadZipsFromCSV fs "../data/zips.csv" = Some (Panicked "index out of range").
Proof.
  unfold main. destruct (_ =? 0)%nat; [discriminate|].
  destruct (loadZipsFromCSV fs "../data/zips.csv") as [[[zips [e|]]|m]|] eqn: Hl;
    try discriminate.
  - apply loadZipsFromCSV_no_nil in Hl.
    destruct (buildIndex_lookup zips Hl) as (zi & -> & _). discriminate.
  - intros H. inversion H; subst.
    assert (msg = "index out of range"); [|subst; now split].
    revert Hl. unfold loadZipsFromCSV, Os.Open. destruct (fs "../data/zips.csv") as [f|];
      [|discriminate].
    destruct (Csv.Read (Csv.NewReader f)) as [[record e] reader].
    destruct e; [discriminate|]. apply readLoop_panic_message.
Qed.

Lemma main_crash_is_index_out_of_range_witness :
  loadZipsFromCSV (oneFile "../data/zips.csv" shortRows) "../data/zips.csv"
  = Some (Panicked "index out of range").
Proof.
  exact (proj2 (main_crash_is_index_out_of_range (fun _ => "localhost:4000")
                  (oneFile "../data/zips.csv" shortRows) "index out of range" eq_refl)).
Defined.

(** X8: index construction panics exactly when the sequence holds a nil
    pointer, and returns an index exactly when it holds none. *)
Theorem buildIndex_panics_iff_nil (zips : zipSlice) :
  ((exists msg, buildIndex zips = Panicked msg) <-> None ∈ elems zips) /\
  ((exists zi, buildIndex zips = Returned zi) <-> Forall is_Some (elems zips)).
Proof. split; [apply indexLoop_panics|apply indexLoop_returns]. Qed.



Lemma index_group_head (zips : zipSlice) (zi : zipIndex) (k : string) (g : zipSlice) :
  buildIndex zips = Returned zi -> zi !! k = Some g ->
  exists z l, g = Some (Some z :: l) /\ Strings.ToLower (City z) = k.
Proof.
  intros Hb Hg. rewrite (buildIndex_returned_lookup zips zi Hb) in Hg.
  destruct (filter _ (elems zips)) as [|p l] eqn: Ef; [discriminate|].
  assert (Hp : p ∈ filter (fun p => keyOf p = Some k) (elems zips)) by (rewrite Ef; left).
  apply list_elem_of_filter in Hp as [E _]. destruct p as [z|]; [|discriminate].
  simpl in E. injection E as E. injection Hg as <-. eauto.
Qed.

(** X10: a constructed index holds no nil and no empty group: under every
    key it has, there is at least one record, and the first one has that
    key as its lower-cased city. *)
Theorem index_groups_nonempty (zips : zipSlice) (zi : zipIndex) (k : string) (g : zipSlice) :
  buildIndex zips = Returned zi -> zi !! k = Some g ->
  exists z l, g = Some (Some z :: l) /\ Strings.ToLower (City z) = k.
Proof. apply index_group_head. Qed.

Lemma index_groups_nonempty_witness :
  exists z l, Some [Some seattle1; Some seattle2] = Some (Some z :: l) /\
              Strings.ToLower (City z) = "seattle".
Proof.
  assert (Hb : buildIndex exampleZips = Returned exampleIndex) by (vm_compute; reflexivity).
  assert (Hg : exampleIndex !! "seattle" = Some (Some [Some seattle1; Some seattle2]))
    by (vm_compute; reflexivity).
  exact (index_groups_nonempty exampleZips exampleIndex "seattle" _ Hb Hg).
Defined.

(** X11: the index of a concatenation is the concatenation of the indexes,
    key by key: running the loop over [a ++ b] is running it over [a] and
    then over [b], each group of the result is the group of [a] followed by
    the group of [b], and the keys are those of either. *)
Theorem index_of_concatenation (a b : list zipPtr) (za zb zab : zipIndex) :
  buildIndex (Some a) = Returned za ->
  buildIndex (Some b) = Returned zb ->
  buildIndex (Some (a ++ b)) = Returned zab ->
  indexLoop za b = Returned zab /\
  (forall k, elems (index zab k) = elems (index za k) ++ elems (index zb k)) /\
  dom zab = dom za ∪ dom zb.
Proof.
  intros Ha Hb Hab. split; [|split].
  - unfold buildIndex in *. simpl in *. rewrite indexLoop_app, Ha in Hab. exact Hab.
  - intros k. unfold index.
    rewrite (buildIndex_returned_lookup _ _ Ha), (buildIndex_returned_lookup _ _ Hb),
      (buildIndex_returned_lookup _ _ Hab).
    simpl. rewrite filter_app.
    destruct (filter _ a), (filter _ b); simpl; rewrite ?app_nil_r; reflexivity.
  - apply set_eq. intros k. rewrite elem_of_union, !elem_of_dom.
    rewrite (buildIndex_returned_lookup _ _ Ha), (buildIndex_returned_lookup _ _ Hb),
      (buildIndex_returned_lookup _ _ Hab).
    simpl. rewrite filter_app.
    destruct (filter _ a), (filter _ b); simpl; split;
      try (intros [? ?]; discriminate); try (intros [[? ?]|[? ?]]; discriminate); eauto.
Qed.

Lemma index_of_concatenation_witness :
  indexLoop (<["seattle" := Some [Some seattle1; Some seattle2]]> ∅) [Some newYork]
  = Returned exampleIndex.
Proof.
  assert (Ha : buildIndex (Some [Some seattle1; Some seattle2])
               = Returned (<["seattle" := Some [Some seattle1; Some seattle2]]> ∅))
    by (vm_compute; reflexivity).
  assert (Hb : buildIndex (Some [Some newYork])
               = Returned (<["new york" := Some [Some newYork]]> ∅))
    by (vm_compute; reflexivity).
  assert (Hab : buildIndex (Some ([Some seattle1; Some seattle2] ++ [Some newYork]))
                = Returned exampleIndex) by (vm_compute; reflexivity).
  exact (proj1 (index_of_concatenation _ _ _ _ _ Ha Hb Hab)).
Defined.

(** ** zipsForCityHandler: bodies, a failing connection, a trailing slash *)

(** The text of a non-empty array is not that of the empty array. *)
Lemma marshal_nonempty (p : zipPtr) (l : list zipPtr) :
  Json.marshal (Some (p :: l)) +:+ Json.newline <> "[]" +:+ Json.newline.
Proof.
  destruct p as [z|], l as [|q l]; intros H; vm_compute in H; discriminate H.
Qed.

(** X12: over a constructed index the body of a response is never the
    empty array: it is [null] for a city without records and otherwise an
    array of at least one record. *)
Theorem handler_body_null_or_nonempty (zips : zipSlice) (zi : zipIndex) (r : Http.Request) :
  buildIndex zips = Returned zi ->
  let body := Http.body (zipsForCityHandler zi (Http.newResponse None) r) in
  (body = "null" +:+ Json.newline \/
   exists z l, body = Json.marshal (Some (Some z :: l)) +:+ Json.newline) /\
  body <> "[]" +:+ Json.newline.
Proof.
  intros Hb body.
  assert (E : body = Json.marshal (index zi (Strings.ToLower
                       (Path.afterLastSlash (Http.Path (Http.Url r))))) +:+ Json.newline)
    by reflexivity.
  rewrite E. unfold index.
  destruct (zi !! _) as [g|] eqn: Hg; [|split; [now left|discriminate]].
  destruct (index_group_head zips zi _ g Hb Hg) as (z & l & -> & _).
  split; [right; exists z, l; reflexivity|].
  apply marshal_nonempty.
Qed.

Lemma handler_body_null_or_nonempty_witness :
  Http.body (zipsForCityHandler exampleIndex (Http.newResponse None)
               (request "GET" "/zips/city/atlantis"))
  <> "[]" +:+ Json.newline.
Proof.
  assert (Hb : buildIndex exampleZips = Returned exampleIndex) by (vm_compute; reflexivity).
  exact (proj2 (handler_body_null_or_nonempty exampleZips exampleIndex
                  (request "GET" "/zips/city/atlantis") Hb)).
Defined.

(** X13: when the write to the connection fails the handler calls
    [http.Error], but the header went out with the failed write: the
    response keeps status 200 and the JSON headers and has no body; only
    the header map of the handler ends with the plain-text content type. *)
Theorem handler_write_failure (zi : zipIndex) (r : Http.Request) (e : error) :
  let w := zipsForCityHandler zi (Http.newResponse (Some e)) r in
  response w = (Http.StatusOK, jsonHeaders, "") /\
  Http.handlerHeader w !! "Content-Type" = Some ["text/plain; charset=utf-8"] /\
  Http.handlerHeader w !! "X-Content-Type-Options" = Some ["nosniff"] /\
  Http.handlerHeader w !! "Access-Control-Allow-Origin" = Some ["*"].
Proof. repeat split. Qed.

(** X14: a path that ends in a slash has the empty city argument: the
    lookup is made under the empty key, whatever precedes the slash. *)
Theorem handler_trailing_slash (zi : zipIndex) (r : Http.Request) (p : string) :
  Http.Path (Http.Url r) = p +:+ "/" ->
  Path.Split (Http.Path (Http.Url r)) = (p +:+ "/", "") /\
  response (zipsForCityHandler zi (Http.newResponse None) r)
  = (Http.StatusOK, jsonHeaders, Json.marshal (index zi "") +:+ Json.newline).
Proof.
  intros H. split.
  - unfold Path.Split. now rewrite H, afterLastSlash_prefix, throughLastSlash_prefix.
  - rewrite handler_healthy, H. now rewrite afterLastSlash_prefix.
Qed.

Lemma handler_trailing_slash_witness :
  response (zipsForCityHandler exampleIndex (Http.newResponse None)
              (request "GET" "/zips/city/seattle/"))
  = (Http.StatusOK, jsonHeaders, "null" +:+ Json.newline).
Proof.
  exact (proj2 (handler_trailing_slash exampleIndex (request "GET" "/zips/city/seattle/")
                  "/zips/city/seattle" eq_refl)).
Defined.

(** ** helloHandler *)

(** X15: [helloHandler] greets the first value of the [name] parameter,
    and greets World when the parameter is missing, has no value or has
    the empty string as its first value; the response is 200 with content
    type [text/plain], and the name greeted is never empty. *)
Theorem helloHandler_greets (Query : Http.URL -> Url.Values) (r : Http.Request) :
  let w := helloHandler Query (Http.newResponse None) r in
  (forall name rest,
     Query (Http.Url r) !! "name" = Some (name :: rest) -> name <> "" ->
     response w = (Http.StatusOK, textHeaders, "Hello " +:+ name)) /\
  (Query (Http.Url r) !! "name" = None \/
   Query (Http.Url r) !! "name" = Some [] \/
   (exists rest, Query (Http.Url r) !! "name" = Some ("" :: rest)) ->
   response w = (Http.StatusOK, textHeaders, "Hello World")) /\
  Http.body w <> "Hello ".
Proof.
  intros w. subst w. unfold helloHandler, Url.Get. split; [|split].
  - intros name rest -> Hn. destruct name; [contradiction|reflexivity].
  - intros [->|[->|[rest ->]]]; reflexivity.
  - destruct (Query (Http.Url r) !! "name") as [[|[|c name] rest]|]; discriminate.
Qed.

Lemma helloHandler_greets_witness :
  response (helloHandler (fun _ => {["name" := ["Ada"]]}) (Http.newResponse None)
              (request "GET" "/hello"))
  = (Http.StatusOK, textHeaders, "Hello Ada") /\
  response (helloHandler (fun _ => ∅) (Http.newResponse None) (request "GET" "/hello"))
  = (Http.StatusOK, textHeaders, "Hello World").
Proof.
  split.
  - refine (proj1 (helloHandler_greets (fun _ => {["name" := ["Ada"]]})
                     (request "GET" "/hello")) "Ada" [] _ _);
      [vm_compute; reflexivity|discriminate].
  - refine (proj1 (proj2 (helloHandler_greets (fun _ => ∅) (request "GET" "/hello"))) _).
    left. vm_compute. reflexivity.
Defined.

(** ** The logging decorators *)


(** ** HandleTasks *)

Section TasksProperties.

Variables NewTask Task Store : Type.
Variable decodeNewTask : string -> NewTask * option error.
Variable Validate : NewTask -> option error.
Variable Insert : Store -> NewTask -> Task * option error * Store.
Variable marshalTask : Task -> string + error.
Variables headerContentType contentTypeJSONUTF8 : string.

Let handle := HandleTasks NewTask Task Store decodeNewTask Validate Insert marshalTask
                headerContentType contentTypeJSONUTF8.

(** X17: [HandleTasks] reaches the store only with a validated task: the
    store it leaves is the one it was given, unless the request is a POST
    whose body decodes and whose task validates, and then it is the store
    [Insert] leaves.  A request of another method changes nothing at all. *)
Theorem HandleTasks_store (store : Store) (w : Http.ResponseWriter) (r : Http.Request) :
  ((handle store w r).1 = store \/
   (Http.Method r = "POST" /\
    exists newtask,
      decodeNewTask (Http.Body r) = (newtask, None) /\ Validate newtask = None /\
      (handle store w r).1 = (Insert store newtask).2)) /\
  (Http.Method r <> "POST" -> handle store w r = (store, w)).
Proof.
  unfold handle, HandleTasks. split.
  - destruct (String.eqb_spec (Http.Method r) "POST") as [Hm|Hm]; [|now left].
    destruct (decodeNewTask (Http.Body r)) as [newtask [e|]] eqn: Hd; [now left|].
    destruct (Validate newtask) as [e|] eqn: Hv; [now left|].
    right. split; [exact Hm|]. exists newtask. split; [reflexivity|]. split; [exact Hv|].
    destruct (Insert store newtask) as [[task [e|]] store']; [reflexivity|].
    destruct (marshalTask task); reflexivity.
  - intros Hm. now destruct (String.eqb_spec (Http.Method r) "POST").
Qed.

(** X18: the responses of [HandleTasks] to a POST, on a healthy connection
    and a writer nothing else wrote to: 400 with [invalid JSON] when the
    body does not decode, 400 with the validation error when the task does
    not validate, 500 with the store's error when the insert fails, and
    otherwise 200 with the content type header and the task as JSON. *)
Theorem HandleTasks_responses (store : Store) (r : Http.Request) :
  Http.Method r = "POST" ->
  let w := (handle store (Http.newResponse None) r).2 in
  let plain : Http.Header :=
    <["X-Content-Type-Options" := ["nosniff"]]>
      (<["Content-Type" := ["text/plain; charset=utf-8"]]> ∅) in
  (forall newtask e,
     decodeNewTask (Http.Body r) = (newtask, Some e) ->
     response w = (400%Z, plain, "invalid JSON" +:+ Json.newline)) /\
  (forall newtask e,
     decodeNewTask (Http.Body r) = (newtask, None) -> Validate newtask = Some e ->
     response w = (400%Z, plain,
                   ("error validating task: " +:+ errorString e) +:+ Json.newline)) /\
  (forall newtask task e store',
     decodeNewTask (Http.Body r) = (newtask, None) -> Validate newtask = None ->
     Insert store newtask = (task, Some e, store') ->
     response w = (500%Z, plain,
                   ("error inserting task: " +:+ errorString e) +:+ Json.newline)) /\
  (forall newtask task store' bytes,
     decodeNewTask (Http.Body r) = (newtask, None) -> Validate newtask = None ->
     Insert store newtask = (task, None, store') -> marshalTask task = inl bytes ->
     response w = (200%Z, <[headerContentType := [contentTypeJSONUTF8]]> ∅,
                   bytes +:+ Json.newline)).
Proof.
  intros Hm w plain. subst w. unfold handle, HandleTasks. rewrite Hm. simpl.
  split; [|split; [|split]].
  - intros newtask e ->. reflexivity.
  - intros newtask e -> ->. reflexivity.
  - intros newtask task e store' -> -> ->. reflexivity.
  - intros newtask task store' bytes -> -> -> ->. reflexivity.
Qed.

End TasksProperties.

Lemma HandleTasks_responses_witness :
  let decode (b : string) : string * option error :=
    (b, if String.eqb b "" then Some (SyntaxError "unexpected end of JSON input") else None) in
  let insert (store : list string) (t : string) : string * option error * list string :=
    (t, None, store ++ [t]) in
  response (HandleTasks string string (list string) decode (fun _ => None) insert inl
              "Content-Type" "application/json; charset=utf-8" []
              (Http.newResponse None)
              (Http.mkRequest "POST" (Http.mkURL "/v1/tasks" "") ∅ "task")).2
  = (200%Z, <["Content-Type" := ["application/json; charset=utf-8"]]> ∅,
     "task" +:+ Json.newline).
Proof.
  intros decode insert.
  exact (proj2 (proj2 (proj2
           (HandleTasks_responses string string (list string) decode (fun _ => None) insert inl
              "Content-Type" "application/json; charset=utf-8" []
              (Http.mkRequest "POST" (Http.mkURL "/v1/tasks" "") ∅ "task") eq_refl)))
           "task" "task" ["task"] "task" eq_refl eq_refl eq_refl eq_refl).
Defined.

(** ** The JSON loader and the JSON variant of main *)

(** An array element becomes a nil pointer exactly when it is [null]. *)
Lemma storeElem_nil (vs : list Json.value) :
  forall (acc : list zipPtr) (saved : option error),
  None ∈ (fold_left Json.storeElem vs (acc, saved)).1 <-> None ∈ acc \/ Json.Null ∈ vs.
Proof.
  induction vs as [|v vs IH]; intros acc saved.
  - simpl. split; [now left|]. intros [H|H]; [exact H|inversion H].
  - cbn [fold_left]. destruct v; cbn [Json.storeElem];
      try (destruct (fold_left Json.storeMember _ _) as [z saved']);
      rewrite IH, elem_of_app, list_elem_of_singleton, elem_of_cons;
      (split; [intros [[H|H]|H]|intros [H|[H|H]]]);
      try discriminate H; auto.
Qed.

(** X19: the JSON variant of [main], when [ADDR] is set and
    [../data/zips.json] starts with an array that is stored without a type
    error: it crashes on a nil pointer in the index loop exactly when the
    array has a [null] element, and otherwise serves the index that groups
    the decoded records by lower-cased city. *)
Theorem mainJSON_null_element (env : string -> string)
    (fs : string -> option (list Json.item)) (vs : list Json.value)
    (rest : list Json.item) (l : list zipPtr) :
  env "ADDR" <> "" ->
  fs "../data/zips.json" = Some (Json.Value (Json.Array vs) :: rest) ->
  fold_left Json.storeElem vs ([], None) = (l, None) ->
  (Json.Null ∈ vs <->
   mainJSON env fs = Crashed "invalid memory address or nil pointer dereference") /\
  (Json.Null ∉ vs ->
   exists zi, mainJSON env fs = Serving (env "ADDR") zi /\ groupedByCity (Some l) zi).
Proof.
  intros Haddr Hfs Hl.
  assert (Hmain : mainJSON env fs
                  = match buildIndex (Some l) with
                    | Panicked msg => Crashed msg
                    | Returned zi => Serving (env "ADDR") zi
                    end).
  { unfold mainJSON, Os.Open. destruct (env "ADDR"); [contradiction|].
    rewrite Hfs. simpl. now rewrite Hl. }
  assert (Hnil : None ∈ l <-> Json.Null ∈ vs).
  { pose proof (storeElem_nil vs [] None) as H. rewrite Hl in H. simpl in H.
    rewrite H. split; [intros [H'|H']; [inversion H'|exact H']|now right]. }
  rewrite Hmain. split; [split|].
  - intros Hin. apply Hnil in Hin.
    apply (indexLoop_panics l ∅) in Hin as [msg Hm].
    unfold buildIndex. simpl. rewrite Hm.
    destruct l as [|[z|] l']; simpl in Hm; [discriminate| |now inversion Hm].
    clear -Hm. f_equal. revert Hm. generalize (<[Strings.ToLower (City z) :=
      append (index ∅ (Strings.ToLower (City z))) (Some z)]> (∅ : zipIndex)).
    induction l' as [|[z'|] l' IH]; simpl; intros zi Hm;
      [discriminate|now apply IH in Hm|now inversion Hm].
  - destruct (buildIndex (Some l)) as [zi|msg] eqn: Hb; [discriminate|].
    intros _. apply Hnil. apply (indexLoop_panics l ∅). eauto.
  - intros Hno.
    assert (Hn : Forall is_Some (elems (Some l))).
    { apply Forall_forall. intros [z|] Hin; [eauto|]. exfalso. now apply Hno, Hnil. }
    destruct (buildIndex_lookup (Some l) Hn) as (zi & Hb & Hk).
    rewrite Hb. exists zi. split; [reflexivity|].
    apply groupedByCity_of_lookup; [exact Hk|now apply buildIndex_entries].
Qed.

Lemma mainJSON_null_element_witness :
  mainJSON (fun _ => "localhost:4000")
    (oneFile "../data/zips.json"
       [Json.Value (Json.Array
          [Json.Object [("zip", Json.Str "98101"); ("city", Json.Str "Seattle");
                        ("state", Json.Str "WA")];
           Json.Null])])
  = Crashed "invalid memory address or nil pointer dereference".
Proof.
  assert (Ha : (fun _ : string => "localhost:4000") "ADDR" <> "") by discriminate.
  assert (Hl : fold_left Json.storeElem
                 [Json.Object [("zip", Json.Str "98101"); ("city", Json.Str "Seattle");
                               ("state", Json.Str "WA")];
                  Json.Null] ([], None)
               = ([Some seattle1; None], None)) by reflexivity.
  refine (proj1 (proj1 (mainJSON_null_element (fun _ => "localhost:4000")
                          (oneFile "../data/zips.json" _) _ [] _ Ha eq_refl Hl)) _).
  right. left.
Defined.

(** X20: [loadZipsFromJSON] reads one value: whatever follows the first
    value of the stream, invalid text included, plays no part; and with an
    error the slice it returns is nil. *)
Theorem loadZipsFromJSON_first_value_only (fs1 fs2 : string -> option (list Json.item))
    (filePath : string) (first : Json.item) (rest1 rest2 : list Json.item) :
  fs1 filePath = Some (first :: rest1) ->
  fs2 filePath = Some (first :: rest2) ->
  loadZipsFromJSON fs1 filePath = loadZipsFromJSON fs2 filePath /\
  forall zips e, loadZipsFromJSON fs1 filePath = Returned (zips, Some e) -> zips = None.
Proof.
  intros H1 H2. unfold loadZipsFromJSON, Os.Open. rewrite H1, H2. split.
  - destruct first as [v| |]; simpl; [|reflexivity..].
    now destruct (Json.unmarshal v (Some [])) as [zips [e|]].
  - intros zips e. destruct first as [v| |]; simpl;
      [destruct (Json.unmarshal v (Some [])) as [zips' [e'|]]|..];
      intros H; now inversion H.
Qed.

Lemma loadZipsFromJSON_first_value_only_witness :
  loadZipsFromJSON (oneFile "zips.json" [Json.Value (Json.Array []); Json.Invalid "x"])
    "zips.json"
  = loadZipsFromJSON (oneFile "zips.json" [Json.Value (Json.Array [])]) "zips.json".
Proof.
  exact (proj1 (loadZipsFromJSON_first_value_only
                  (oneFile "zips.json" [Json.Value (Json.Array []); Json.Invalid "x"])
                  (oneFile "zips.json" [Json.Value (Json.Array [])])
                  "zips.json" _ _ _ eq_refl eq_refl)).
Defined.
